(** * DesignPatterns: the Flyweight registry and the Subject/Observer registry

    A shallow embedding of [Structural/Flyweight/main.cpp] and
    [Behavioral/Observer/main.cpp], and the properties of the two
    mechanisms: the interning map of [FlyweightFactory] and the
    subscriber list of [Subject] together with the process-wide
    numbering of [Observer].

    Conventions of the embedding.
    - [std::string] is [string]; [operator+] on strings is [+:+].
    - [std::unordered_map<std::string, Flyweight>] is [gmap string Flyweight];
      [insert] of a pair keeps an entry that is already there, [find] and
      [at] are lookups, [size()] is [size].
    - [std::list<IObserver*>] is a [list] of addresses; [push_back] appends,
      [remove] erases every element equal to its argument.
    - [std::cout] is the text written so far; every [<<] chain appends. *)

From Stdlib Require Import Ascii.
From stdpp Require Import base list strings gmap pretty.

Local Open Scope string_scope.

(** ** Characters that cannot be typed inside a literal *)

Definition nl : string := String (Ascii.ascii_of_nat 10) EmptyString.
Definition dquote : string := String (Ascii.ascii_of_nat 34) EmptyString.

(** * Part I: Flyweight *)

Module Structural_Flyweight.

(** The intrinsic state: three strings. *)
Record SharedState := mkSharedState {
  brand_ : string;
  model_ : string;
  color_ : string
}.

(** The extrinsic state, supplied by the client at each use. *)
Record UniqueState := mkUniqueState {
  owner_ : string;
  plates_ : string
}.

(** [operator<<] of the two structs. *)
Definition show_SharedState (ss : SharedState) : string :=
  "[ " +:+ brand_ ss +:+ ", " +:+ model_ ss +:+ ", " +:+ color_ ss +:+ " ]".

Definition show_UniqueState (us : UniqueState) : string :=
  "[ " +:+ owner_ us +:+ ", " +:+ plates_ us +:+ " ]".

(** A [Flyweight] owns a private copy of one [SharedState]: both
    constructors allocate [new SharedState(...)] from the pointee. *)
Record Flyweight := mkFlyweight { shared_state_ : SharedState }.

Definition Flyweight_of (shared_state : SharedState) : Flyweight :=
  mkFlyweight shared_state.

Definition Flyweight_copy (other : Flyweight) : Flyweight :=
  mkFlyweight (shared_state_ other).

Definition Operation (this : Flyweight) (unique_state : UniqueState) : string :=
  "Flyweight: Displaying shared (" +:+ show_SharedState (shared_state_ this)
  +:+ ") and unique (" +:+ show_UniqueState unique_state +:+ ") state." +:+ nl.

Record FlyweightFactory := mkFactory { flyweights_ : gmap string Flyweight }.

(** [GetKey]: the fields joined by ["_"], associated as C++ associates
    [operator+] (to the left). *)
Definition GetKey (ss : SharedState) : string :=
  (((brand_ ss +:+ "_") +:+ model_ ss) +:+ "_") +:+ color_ ss.

(** [std::unordered_map::insert(pair)]: no effect when the key is present. *)
Definition umap_insert (key : string) (fw : Flyweight)
    (m : gmap string Flyweight) : gmap string Flyweight :=
  match m !! key with
  | Some _ => m
  | None => <[key := fw]> m
  end.

(** The constructor: one [insert] per element of the initializer list,
    in order, starting from the empty map. *)
Definition FlyweightFactory_new (shared_states : list SharedState) : FlyweightFactory :=
  mkFactory
    (foldl (fun m ss => umap_insert (GetKey ss) (Flyweight_of ss) m) ∅ shared_states).

(** What a call leaves behind: the factory, the text sent to [std::cout]
    and the value returned. *)
Record Call (A : Type) := mkCall {
  factory : FlyweightFactory;
  printed : string;
  returned : A
}.
Arguments mkCall {A} _ _ _.
Arguments factory {A} _.
Arguments printed {A} _.
Arguments returned {A} _.

Definition msg_created : string :=
  "FlyweightFactory: Can't find a flyweight, creating a new one." +:+ nl.
Definition msg_reused : string :=
  "FlyweightFactory: Reusing existing flyweight." +:+ nl.

(** [GetFlyweight].  [flyweights_.at(key)] throws [std::out_of_range] on a
    missing key: the returned value is [None] in that case.  The entry is
    returned by value, through the copy constructor. *)
Definition GetFlyweight (shared_state : SharedState) (this : FlyweightFactory)
    : Call (option Flyweight) :=
  let key := GetKey shared_state in
  let '(m, out) :=
    match flyweights_ this !! key with
    | None => (umap_insert key (Flyweight_of shared_state) (flyweights_ this), msg_created)
    | Some _ => (flyweights_ this, msg_reused)
    end in
  mkCall (mkFactory m) out (Flyweight_copy <$> m !! key).

(** The [size_t count = this->flyweights_.size()] that [ListFlyweights] reads. *)
Definition count (this : FlyweightFactory) : nat := size (flyweights_ this).


(** [AddCarToPoliceDatabase]: announce, intern the brace-initialised
    [SharedState], then run [Operation] on the returned flyweight. *)
Definition AddCarToPoliceDatabase (ff : FlyweightFactory)
    (plates owner brand model color : string) : Call unit :=
  let c := GetFlyweight (mkSharedState brand model color) ff in
  mkCall (factory c)
    (nl +:+ "Client: Adding a car to database." +:+ nl +:+ printed c +:+
     match returned c with
     | Some flyweight => Operation flyweight (mkUniqueState owner plates)
     | None => EmptyString
     end)
    tt.

(** A sequence of [GetFlyweight] calls on one factory. *)
Definition intern_all (l : list SharedState) (ff : FlyweightFactory) : FlyweightFactory :=
  foldl (fun ff ss => factory (GetFlyweight ss ff)) ff l.

(** Every entry sits under the key of the state it holds. *)
Definition key_consistent (ff : FlyweightFactory) : Prop :=
  map_Forall (fun key fw => GetKey (shared_state_ fw) = key) (flyweights_ ff).

(** Does the string contain the separator? *)
Fixpoint has_sep (s : string) : bool :=
  match s with
  | EmptyString => false
  | String c r => if decide (c = "_"%char) then true else has_sep r
  end.

(** ** Vocabulary of the further statements *)

(** The first state of a list that has the given key. *)
Fixpoint first_with_key (key : string) (l : list SharedState) : option SharedState :=
  match l with
  | [] => None
  | ss :: l' => if decide (GetKey ss = key) then Some ss else first_with_key key l'
  end.

(** Neither the brand nor the model holds the separator. *)
Definition plain (ss : SharedState) : bool :=
  negb (has_sep (brand_ ss)) && negb (has_sep (model_ ss)).



End Structural_Flyweight.

(** * Part II: Observer *)

Module Behavioral_Observer.

(** Objects live on the heap and are known by their address.  Addresses
    are allocation indices: the n-th [new] of a class yields address n. *)
Abbreviation addr := nat (only parsing).

(** ** [int]

    [Observer::static_number_] and [Observer::number_] are [int].  Signed
    overflow is undefined in ISO C++; the embedding takes the 32-bit
    two's-complement result of the usual targets. *)
Definition INT_MAX : Z := 2 ^ 31 - 1.
Definition int_wrap (z : Z) : Z := ((z + 2 ^ 31) `mod` 2 ^ 32 - 2 ^ 31)%Z.

(** ** The two classes *)

Record Subject := mkSubject {
  list_observer_ : list addr;          (* std::list<IObserver*> *)
  message_ : string
}.

Record Observer := mkObserver {
  message_from_subject_ : string;
  subject_ : addr;                     (* Subject& *)
  number_ : Z                          (* int *)
}.

(** [std::list::remove(value)]: erases every element equal to [value]. *)
Fixpoint std_list_remove (value : addr) (l : list addr) : list addr :=
  match l with
  | [] => []
  | x :: l' =>
      if decide (x = value) then std_list_remove value l'
      else x :: std_list_remove value l'
  end.

(** The three members of [Subject] that touch only the subject itself. *)
Definition Subject_Attach (observer : addr) (this : Subject) : Subject :=
  mkSubject (list_observer_ this ++ [observer]) (message_ this).

Definition Subject_Detach (observer : addr) (this : Subject) : Subject :=
  mkSubject (std_list_remove observer (list_observer_ this)) (message_ this).

Definition Subject_size (this : Subject) : nat := length (list_observer_ this).

(** ** What the process does that can be seen

    One event per [std::cout] statement of the source, carrying the values
    it prints, and one for each entry into [Observer::Update]. *)
Inductive event :=
| EvHi (n : Z)                           (* the constructor's greeting *)
| EvGoodbye (n : Z)                      (* the destructor's line *)
| EvHowMany (k : nat)                    (* HowManyObservers *)
| EvUpdate (o : addr) (msg : string)     (* [o->Update(msg)] entered; prints nothing *)
| EvNewMessage (n : Z) (msg : string)    (* PrintInfo *)
| EvRemoved (n : Z)                      (* RemoveMeFromTheList *)
| EvImportant.                           (* SomeBusinessLogic *)

(** The text each event puts on [std::cout]. *)
Definition render (e : event) : string :=
  match e with
  | EvHi n => "Hi, I'm the Observer " +:+ dquote +:+ pretty n +:+ dquote +:+ nl
  | EvGoodbye n => "Goodbye, I was the Observer " +:+ dquote +:+ pretty n +:+ dquote +:+ nl
  | EvHowMany k => "There are " +:+ pretty k +:+ " observers in the list." +:+ nl
  | EvUpdate _ _ => EmptyString
  | EvNewMessage n msg =>
      "Observer " +:+ dquote +:+ pretty n +:+ dquote
      +:+ " a new message is available --> " +:+ msg +:+ nl
  | EvRemoved n => "Observer " +:+ dquote +:+ pretty n +:+ dquote +:+ " removed from the list." +:+ nl
  | EvImportant => "I'm about to do something important." +:+ nl
  end.

Definition render_all (t : list event) : string :=
  foldr (fun e acc => render e +:+ acc) EmptyString t.

(** The [Update] calls of a trace, and the numbers its constructors drew. *)
Definition update_calls (t : list event) : list (addr * string) :=
  omap (fun e => match e with EvUpdate o msg => Some (o, msg) | _ => None end) t.

Definition drawn (t : list event) : list Z :=
  omap (fun e => match e with EvHi n => Some n | _ => None end) t.

(** ** The process state

    The static counter, the two heaps (a destroyed object leaves [None]
    at its address) and the events so far. *)
Record World := mkWorld {
  static_number_ : Z;                    (* int Observer::static_number_ *)
  subjects : list (option Subject);
  observers : list (option Observer);
  trace : list event
}.

(** [int Observer::static_number_ = 0;] and nothing allocated. *)
Definition init : World := mkWorld 0 [] [] [].

Definition cout (w : World) : string := render_all (trace w).

Definition subject_at (s : addr) (w : World) : option Subject := mjoin (subjects w !! s).
Definition observer_at (o : addr) (w : World) : option Observer := mjoin (observers w !! o).

Definition put_subject (s : addr) (c : option Subject) (w : World) : World :=
  mkWorld (static_number_ w) (<[s := c]> (subjects w)) (observers w) (trace w).

Definition put_observer (o : addr) (c : option Observer) (w : World) : World :=
  mkWorld (static_number_ w) (subjects w) (<[o := c]> (observers w)) (trace w).

Definition emit (e : event) (w : World) : World :=
  mkWorld (static_number_ w) (subjects w) (observers w) (trace w ++ [e]).

(** ** Members of [Subject], on the process state

    A member called on a destroyed or never allocated object has no
    defined behaviour: the result is [None]. *)
Definition Attach (s observer : addr) (w : World) : option World :=
  this ← subject_at s w;
  Some (put_subject s (Some (Subject_Attach observer this)) w).

Definition Detach (s observer : addr) (w : World) : option World :=
  this ← subject_at s w;
  Some (put_subject s (Some (Subject_Detach observer this)) w).

Definition HowManyObservers (s : addr) (w : World) : option World :=
  this ← subject_at s w;
  Some (emit (EvHowMany (Subject_size this)) w).

(** ** Members of [Observer] *)
Definition PrintInfo (o : addr) (w : World) : option World :=
  this ← observer_at o w;
  Some (emit (EvNewMessage (number_ this) (message_from_subject_ this)) w).

Definition Update (o : addr) (message_from_subject : string) (w : World) : option World :=
  this ← observer_at o w;
  PrintInfo o
    (put_observer o
       (Some (mkObserver message_from_subject (subject_ this) (number_ this)))
       (emit (EvUpdate o message_from_subject) w)).

Definition RemoveMeFromTheList (o : addr) (w : World) : option World :=
  this ← observer_at o w;
  w1 ← Detach (subject_ this) o w;
  Some (emit (EvRemoved (number_ this)) w1).

(** The constructor: attach [this], pre-increment the static counter and
    print it, then copy it into [number_].  The new object gets the next
    free address; its string member starts empty. *)
Definition Observer_new (subject : addr) (w : World) : option World :=
  let this := length (observers w) in
  w1 ← Attach subject this w;
  let n := int_wrap (static_number_ w1 + 1) in
  let w2 := emit (EvHi n)
              (mkWorld n (subjects w1) (observers w1) (trace w1)) in
  Some (mkWorld (static_number_ w2) (subjects w2)
          (observers w2 ++ [Some (mkObserver EmptyString subject (static_number_ w2))])
          (trace w2)).

(** The destructor prints and does not detach. *)
Definition Observer_delete (o : addr) (w : World) : option World :=
  this ← observer_at o w;
  Some (put_observer o None (emit (EvGoodbye (number_ this)) w)).

Definition Subject_new (w : World) : World :=
  mkWorld (static_number_ w) (subjects w ++ [Some (mkSubject [] EmptyString)])
    (observers w) (trace w).

Definition Subject_delete (s : addr) (w : World) : option World :=
  _ ← subject_at s w;
  Some (put_subject s None w).

(** ** [Notify]

    The [while] loop walks the list from [begin()] to [end()].  No member
    of [Observer] reachable from [Update] touches a subject, so the nodes
    the iterator visits are those of the list when the loop starts:
    [its] is what is left to visit.  [message_] is passed by reference and
    read at each call. *)
Fixpoint Notify_loop (s : addr) (its : list addr) (w : World) : option World :=
  match its with
  | [] => Some w
  | it :: rest =>
      this ← subject_at s w;
      w1 ← Update it (message_ this) w;
      Notify_loop s rest w1
  end.

Definition Notify (s : addr) (w : World) : option World :=
  this ← subject_at s w;
  w1 ← HowManyObservers s w;
  Notify_loop s (list_observer_ this) w1.

(** [CreateMessage(std::string message = "Empty")]: a call that omits the
    argument is [None] here. *)
Definition CreateMessage_default : string := "Empty".

Definition CreateMessage (s : addr) (message : option string) (w : World) : option World :=
  this ← subject_at s w;
  Notify s
    (put_subject s
       (Some (mkSubject (list_observer_ this) (default CreateMessage_default message))) w).

Definition SomeBusinessLogic (s : addr) (w : World) : option World :=
  this ← subject_at s w;
  w1 ← Notify s (put_subject s (Some (mkSubject (list_observer_ this) "change message")) w);
  Some (emit EvImportant w1).

(** ** Client programs: sequences of calls *)
Inductive call :=
| NewSubject
| DeleteSubject (s : addr)
| NewObserver (subject : addr)
| DeleteObserver (o : addr)
| CallAttach (s o : addr)
| CallDetach (s o : addr)
| CallNotify (s : addr)
| CallCreateMessage (s : addr) (message : option string)
| CallHowManyObservers (s : addr)
| CallSomeBusinessLogic (s : addr)
| CallUpdate (o : addr) (msg : string)
| CallRemoveMeFromTheList (o : addr)
| CallPrintInfo (o : addr).

Definition step (c : call) (w : World) : option World :=
  match c with
  | NewSubject => Some (Subject_new w)
  | DeleteSubject s => Subject_delete s w
  | NewObserver subject => Observer_new subject w
  | DeleteObserver o => Observer_delete o w
  | CallAttach s o => Attach s o w
  | CallDetach s o => Detach s o w
  | CallNotify s => Notify s w
  | CallCreateMessage s message => CreateMessage s message w
  | CallHowManyObservers s => HowManyObservers s w
  | CallSomeBusinessLogic s => SomeBusinessLogic s w
  | CallUpdate o msg => Update o msg w
  | CallRemoveMeFromTheList o => RemoveMeFromTheList o w
  | CallPrintInfo o => PrintInfo o w
  end.

Fixpoint run (cs : list call) (w : World) : option World :=
  match cs with
  | [] => Some w
  | c :: cs' => w1 ← step c w; run cs' w1
  end.

(** How many observers a program constructs. *)
Definition is_construction (c : call) : bool :=
  match c with NewObserver _ => true | _ => false end.

Fixpoint constructions (cs : list call) : nat :=
  match cs with
  | [] => 0
  | c :: cs' => (if is_construction c then 1 else 0) + constructions cs'
  end.

(** [ClientCode]: the subject is at address 0, [observer1] to [observer5]
    at addresses 0 to 4. *)
Definition ClientCode : list call :=
  [ NewSubject;
    NewObserver 0; NewObserver 0; NewObserver 0;
    CallCreateMessage 0 (Some "Hello World! :D");
    CallRemoveMeFromTheList 2;
    CallCreateMessage 0 (Some "The weather is hot today! :P");
    NewObserver 0;
    CallRemoveMeFromTheList 1;
    NewObserver 0;
    CallCreateMessage 0 (Some "My new car is great! ;)");
    CallRemoveMeFromTheList 4;
    CallRemoveMeFromTheList 3;
    CallRemoveMeFromTheList 0;
    DeleteObserver 4; DeleteObserver 3; DeleteObserver 2;
    DeleteObserver 1; DeleteObserver 0;
    DeleteSubject 0 ].

(** The reading of [detach] as "erase the first match", to compare
    [std_list_remove] with. *)
Fixpoint erase_first (value : addr) (l : list addr) : list addr :=
  match l with
  | [] => []
  | x :: l' => if decide (x = value) then l' else x :: erase_first value l'
  end.

Definition quoted (s : string) : string := dquote +:+ s +:+ dquote.

(** The output that the comment closing [main.cpp] documents. *)
Definition ClientCode_output : string :=
  foldr (fun line acc => line +:+ nl +:+ acc) EmptyString
    [ "Hi, I'm the Observer " +:+ quoted "1";
      "Hi, I'm the Observer " +:+ quoted "2";
      "Hi, I'm the Observer " +:+ quoted "3";
      "There are 3 observers in the list.";
      "Observer " +:+ quoted "1" +:+ " a new message is available --> Hello World! :D";
      "Observer " +:+ quoted "2" +:+ " a new message is available --> Hello World! :D";
      "Observer " +:+ quoted "3" +:+ " a new message is available --> Hello World! :D";
      "Observer " +:+ quoted "3" +:+ " removed from the list.";
      "There are 2 observers in the list.";
      "Observer " +:+ quoted "1" +:+ " a new message is available --> The weather is hot today! :P";
      "Observer " +:+ quoted "2" +:+ " a new message is available --> The weather is hot today! :P";
      "Hi, I'm the Observer " +:+ quoted "4";
      "Observer " +:+ quoted "2" +:+ " removed from the list.";
      "Hi, I'm the Observer " +:+ quoted "5";
      "There are 3 observers in the list.";
      "Observer " +:+ quoted "1" +:+ " a new message is available --> My new car is great! ;)";
      "Observer " +:+ quoted "4" +:+ " a new message is available --> My new car is great! ;)";
      "Observer " +:+ quoted "5" +:+ " a new message is available --> My new car is great! ;)";
      "Observer " +:+ quoted "5" +:+ " removed from the list.";
      "Observer " +:+ quoted "4" +:+ " removed from the list.";
      "Observer " +:+ quoted "1" +:+ " removed from the list.";
      "Goodbye, I was the Observer " +:+ quoted "5";
      "Goodbye, I was the Observer " +:+ quoted "4";
      "Goodbye, I was the Observer " +:+ quoted "3";
      "Goodbye, I was the Observer " +:+ quoted "2";
      "Goodbye, I was the Observer " +:+ quoted "1" ].

(** [ClientCode] after its first three constructions. *)
Definition three_observers : World :=
  default init (run [NewSubject; NewObserver 0; NewObserver 0; NewObserver 0] init).

(** ** Vocabulary of the statements *)

(** What [Update] with [msg] makes of an observer. *)
Definition received (msg : string) (this : Observer) : Observer :=
  mkObserver msg (subject_ this) (number_ this).

(** Every address of the list is a live observer. *)
Definition all_live (l : list addr) (w : World) : Prop :=
  Forall (fun o => is_Some (observer_at o w)) l.

(** The state after [o->Update(msg)] on a live observer [this]. *)
Definition updated (o : addr) (msg : string) (this : Observer) (w : World) : World :=
  mkWorld (static_number_ w) (subjects w)
    (<[o := Some (mkObserver msg (subject_ this) (number_ this))]> (observers w))
    (trace w ++ [EvUpdate o msg; EvNewMessage (number_ this) msg]).

(** The events of one notification of [o], its number read in [w]. *)
Definition notification (w : World) (msg : string) (o : addr) : list event :=
  match observer_at o w with
  | Some this => [EvUpdate o msg; EvNewMessage (number_ this) msg]
  | None => []
  end.

(** [w'] comes from [w] without a construction: same counter, same
    addresses, no new number drawn, and a live observer has the number
    it had. *)
Definition same_numbering (w w' : World) : Prop :=
  static_number_ w' = static_number_ w
  ∧ length (observers w') = length (observers w)
  ∧ drawn (trace w') = drawn (trace w)
  ∧ ∀ o ob', observer_at o w' = Some ob' →
      ∃ ob, observer_at o w = Some ob ∧ number_ ob' = number_ ob.

(** The numbering invariant of the process: after n constructions the
    counter is n (as an [int]), the numbers drawn are 1 to n (as [int]s)
    in this order, and the observer at address o holds the (o+1)-th. *)
Definition numbered (w : World) : Prop :=
  static_number_ w = int_wrap (Z.of_nat (length (observers w)))
  ∧ drawn (trace w) = (fun i => int_wrap (Z.of_nat i)) <$> seq 1 (length (observers w))
  ∧ ∀ o ob, observer_at o w = Some ob → number_ ob = int_wrap (Z.of_nat (S o)).

(** ** Vocabulary of the further statements *)


(** From [w] to [w'] no list has gained an entry and no observer has
    died or changed its subject. *)
Definition calm (w w' : World) : Prop :=
  (∀ s this' o, subject_at s w' = Some this' → o ∈ list_observer_ this' →
     ∃ this, subject_at s w = Some this ∧ o ∈ list_observer_ this)
  ∧ (∀ o ob, observer_at o w = Some ob →
       ∃ ob', observer_at o w' = Some ob' ∧ subject_ ob' = subject_ ob).




End Behavioral_Observer.

(** * Part III: facts on [string] used by both developments *)

Module String_Facts.

Lemma append_nil_l (t : string) : EmptyString +:+ t = t.
Proof. reflexivity. Qed.

Lemma append_cons (c : ascii) (s t : string) : String c s +:+ t = String c (s +:+ t).
Proof. reflexivity. Qed.

Lemma append_nil_r (s : string) : s +:+ EmptyString = s.
Proof.
  induction s as [|c s IH]; [done |].
  rewrite append_cons. by rewrite IH.
Qed.

Lemma append_assoc (s t u : string) : (s +:+ t) +:+ u = s +:+ (t +:+ u).
Proof.
  induction s as [|c s IH]; [done |].
  rewrite !append_cons. by rewrite IH.
Qed.

End String_Facts.

(** * Part IV: properties of the Flyweight registry *)

Module Flyweight_Proofs.
Import Structural_Flyweight String_Facts.

(** ** Keys *)

(** A string without separator is recovered from what follows it. *)
Lemma sep_split (x x' r r' : string) :
  has_sep x = false → has_sep x' = false →
  x +:+ "_" +:+ r = x' +:+ "_" +:+ r' → x = x' ∧ r = r'.
Proof.
  revert x'. induction x as [|c x IH]; intros [|c' x'] Hx Hx' E;
    rewrite ?append_nil_l, ?append_cons in E; simpl in Hx, Hx'.
  - by injection E.
  - injection E as Ec _. subst c'. by rewrite decide_True in Hx'.
  - injection E as Ec _. subst c. by rewrite decide_True in Hx.
  - injection E as Ec E'. subst c'.
    destruct (decide (c = "_"%char)); [done |].
    destruct (IH x' Hx Hx' E') as [-> ->]. done.
Qed.

(** [GetKey] with the concatenations associated to the right. *)
Lemma GetKey_right (ss : SharedState) :
  GetKey ss = brand_ ss +:+ "_" +:+ (model_ ss +:+ "_" +:+ color_ ss).
Proof. unfold GetKey. by rewrite !append_assoc. Qed.

(** On states whose brand and model hold no separator the key determines
    the three fields. *)
Lemma GetKey_inj (a b : SharedState) :
  has_sep (brand_ a) = false → has_sep (model_ a) = false →
  has_sep (brand_ b) = false → has_sep (model_ b) = false →
  GetKey a = GetKey b → a = b.
Proof.
  intros Hba Hma Hbb Hmb E. rewrite !GetKey_right in E.
  destruct (sep_split _ _ _ _ Hba Hbb E) as [Eb E'].
  destruct (sep_split _ _ _ _ Hma Hmb E') as [Em Ec].
  destruct a, b; simpl in *; congruence.
Qed.

(** ** The two paths of [GetFlyweight] *)

Lemma Flyweight_copy_id (fw : Flyweight) : Flyweight_copy fw = fw.
Proof. by destruct fw. Qed.

Lemma GetFlyweight_reuse (ss : SharedState) (ff : FlyweightFactory) (fw : Flyweight) :
  flyweights_ ff !! GetKey ss = Some fw →
  GetFlyweight ss ff = mkCall ff msg_reused (Some fw).
Proof.
  intros H. unfold GetFlyweight. rewrite H. simpl. rewrite H. simpl.
  rewrite Flyweight_copy_id. by destruct ff.
Qed.

Lemma GetFlyweight_create (ss : SharedState) (ff : FlyweightFactory) :
  flyweights_ ff !! GetKey ss = None →
  GetFlyweight ss ff =
    mkCall (mkFactory (<[GetKey ss := Flyweight_of ss]> (flyweights_ ff)))
      msg_created (Some (Flyweight_of ss)).
Proof.
  intros H. unfold GetFlyweight, umap_insert. rewrite H. simpl.
  by rewrite lookup_insert_eq.
Qed.

(** After a call the key of the request is present, and the call returns
    the entry stored under it. *)
Lemma GetFlyweight_returns (ss : SharedState) (ff : FlyweightFactory) :
  ∃ fw, returned (GetFlyweight ss ff) = Some fw
        ∧ flyweights_ (factory (GetFlyweight ss ff)) !! GetKey ss = Some fw.
Proof.
  destruct (flyweights_ ff !! GetKey ss) as [fw|] eqn:H.
  - exists fw. by rewrite (GetFlyweight_reuse _ _ _ H).
  - exists (Flyweight_of ss). rewrite (GetFlyweight_create _ _ H). simpl.
    by rewrite lookup_insert_eq.
Qed.

(** No call removes or replaces an entry. *)
Lemma GetFlyweight_subseteq (ss : SharedState) (ff : FlyweightFactory) :
  flyweights_ ff ⊆ flyweights_ (factory (GetFlyweight ss ff)).
Proof.
  destruct (flyweights_ ff !! GetKey ss) as [fw|] eqn:H.
  - by rewrite (GetFlyweight_reuse _ _ _ H).
  - rewrite (GetFlyweight_create _ _ H). simpl. by apply insert_subseteq.
Qed.

Lemma umap_insert_subseteq (key : string) (fw : Flyweight) (m : gmap string Flyweight) :
  m ⊆ umap_insert key fw m.
Proof.
  unfold umap_insert. destruct (m !! key) eqn:H; [done |]. by apply insert_subseteq.
Qed.

Lemma dom_GetFlyweight (ss : SharedState) (ff : FlyweightFactory) :
  dom (flyweights_ (factory (GetFlyweight ss ff))) = {[GetKey ss]} ∪ dom (flyweights_ ff).
Proof.
  destruct (flyweights_ ff !! GetKey ss) as [fw|] eqn:H.
  - rewrite (GetFlyweight_reuse _ _ _ H). simpl.
    apply (elem_of_dom_2 (D := gset string)) in H.
    symmetry. by apply subseteq_union_1_L, singleton_subseteq_l.
  - rewrite (GetFlyweight_create _ _ H). simpl. by rewrite dom_insert_L.
Qed.

Lemma intern_all_snoc (l : list SharedState) (ss : SharedState) (ff : FlyweightFactory) :
  intern_all (l ++ [ss]) ff = factory (GetFlyweight ss (intern_all l ff)).
Proof. unfold intern_all. by rewrite foldl_app. Qed.

Lemma intern_all_cons (l : list SharedState) (ss : SharedState) (ff : FlyweightFactory) :
  intern_all (ss :: l) ff = intern_all l (factory (GetFlyweight ss ff)).
Proof. reflexivity. Qed.

Lemma dom_intern_all (l : list SharedState) (ff : FlyweightFactory) :
  dom (flyweights_ (intern_all l ff))
  = dom (flyweights_ ff) ∪ list_to_set (GetKey <$> l).
Proof.
  revert ff. induction l as [|ss l IH]; intros ff.
  - simpl. by rewrite union_empty_r_L.
  - rewrite intern_all_cons, IH, dom_GetFlyweight. simpl.
    by rewrite (comm_L (∪) {[GetKey ss]}), <- (assoc_L (∪)).
Qed.

Lemma intern_all_subseteq (l : list SharedState) (ff : FlyweightFactory) :
  flyweights_ ff ⊆ flyweights_ (intern_all l ff).
Proof.
  revert ff. induction l as [|ss l IH]; intros ff; [done |].
  rewrite intern_all_cons. etrans; [apply GetFlyweight_subseteq | apply IH].
Qed.

Lemma keys_remove_dups (l : list string) :
  list_to_set (remove_dups l) =@{gset string} list_to_set l.
Proof.
  apply set_eq. intros x. by rewrite !elem_of_list_to_set, elem_of_remove_dups.
Qed.

Lemma count_dom (ff : FlyweightFactory) : count ff = size (dom (flyweights_ ff)).
Proof. unfold count. by rewrite size_dom. Qed.

Lemma FlyweightFactory_new_nil : flyweights_ (FlyweightFactory_new []) = ∅.
Proof. reflexivity. Qed.

Lemma FlyweightFactory_new_snoc (l : list SharedState) (ss : SharedState) :
  flyweights_ (FlyweightFactory_new (l ++ [ss]))
  = umap_insert (GetKey ss) (Flyweight_of ss) (flyweights_ (FlyweightFactory_new l)).
Proof. unfold FlyweightFactory_new. simpl. by rewrite foldl_app. Qed.

(** ** Key consistency *)

Lemma key_consistent_umap_insert (ss : SharedState) (m : gmap string Flyweight) :
  key_consistent (mkFactory m) →
  key_consistent (mkFactory (umap_insert (GetKey ss) (Flyweight_of ss) m)).
Proof.
  unfold key_consistent, umap_insert. simpl. intros Hm.
  destruct (m !! GetKey ss) eqn:H; [done |].
  by apply map_Forall_insert_2.
Qed.

Lemma key_consistent_new (l : list SharedState) : key_consistent (FlyweightFactory_new l).
Proof.
  induction l as [|ss l IH] using rev_ind.
  - unfold key_consistent. rewrite FlyweightFactory_new_nil. apply map_Forall_empty.
  - unfold key_consistent. rewrite FlyweightFactory_new_snoc.
    apply (key_consistent_umap_insert ss). by destruct (FlyweightFactory_new l).
Qed.

Lemma key_consistent_GetFlyweight (ss : SharedState) (ff : FlyweightFactory) :
  key_consistent ff → key_consistent (factory (GetFlyweight ss ff)).
Proof.
  intros Hff. destruct (flyweights_ ff !! GetKey ss) as [fw|] eqn:H.
  - by rewrite (GetFlyweight_reuse _ _ _ H).
  - rewrite (GetFlyweight_create _ _ H). simpl.
    unfold key_consistent. simpl. by apply map_Forall_insert_2.
Qed.

Lemma key_consistent_intern_all (l : list SharedState) (ff : FlyweightFactory) :
  key_consistent ff → key_consistent (intern_all l ff).
Proof.
  revert ff. induction l as [|ss l IH]; intros ff Hff; [done |].
  rewrite intern_all_cons. by apply IH, key_consistent_GetFlyweight.
Qed.

(** ** The registry of [main], as a check of the embedding against the
    output the source documents *)

Definition main_factory : FlyweightFactory :=
  FlyweightFactory_new
    [ mkSharedState "Chevrolet" "Camaro" "pink";
      mkSharedState "Mercedes Benz" "C300" "black";
      mkSharedState "Mercedes Benz" "C500" "red";
      mkSharedState "BMW" "M5" "red";
      mkSharedState "BMW" "X6" "white" ].

Example main_output :
  count main_factory = 5
  ∧ printed (AddCarToPoliceDatabase main_factory "CL234IR" "James Doe" "BMW" "M5" "red")
    = nl +:+ "Client: Adding a car to database." +:+ nl
      +:+ "FlyweightFactory: Reusing existing flyweight." +:+ nl
      +:+ "Flyweight: Displaying shared ([ BMW, M5, red ]) and unique ([ James Doe, CL234IR ]) state."
      +:+ nl
  ∧ printed (AddCarToPoliceDatabase main_factory "CL234IR" "James Doe" "BMW" "X1" "red")
    = nl +:+ "Client: Adding a car to database." +:+ nl
      +:+ "FlyweightFactory: Can't find a flyweight, creating a new one." +:+ nl
      +:+ "Flyweight: Displaying shared ([ BMW, X1, red ]) and unique ([ James Doe, CL234IR ]) state."
      +:+ nl
  ∧ count (factory (AddCarToPoliceDatabase main_factory "CL234IR" "James Doe" "BMW" "X1" "red"))
    = 6.
Proof. vm_compute. done. Qed.

(** ** The claims *)

(** C1 (interning identity).  For two states [a] and [b] with the same
    brand, model and color, [GetFlyweight a] followed by [GetFlyweight b]
    returns two flyweights with equal shared state, both the entry stored
    under the one key [GetKey a = GetKey b]; the second call takes the
    reuse path, leaves the registry as it is, and [count] after it is
    [count] after the first. *)
Theorem interning_identity (ff : FlyweightFactory) (a b : SharedState) :
  brand_ a = brand_ b → model_ a = model_ b → color_ a = color_ b →
  ∃ fa fb,
    returned (GetFlyweight a ff) = Some fa
    ∧ returned (GetFlyweight b (factory (GetFlyweight a ff))) = Some fb
    ∧ shared_state_ fa = shared_state_ fb
    ∧ GetKey a = GetKey b
    ∧ flyweights_ (factory (GetFlyweight b (factory (GetFlyweight a ff)))) !! GetKey b = Some fb
    ∧ printed (GetFlyweight b (factory (GetFlyweight a ff))) = msg_reused
    ∧ count (factory (GetFlyweight b (factory (GetFlyweight a ff))))
      = count (factory (GetFlyweight a ff)).
Proof.
  intros Hb Hm Hc.
  assert (a = b) as <- by (destruct a, b; simpl in *; congruence).
  destruct (GetFlyweight_returns a ff) as (fw & Hret & Hin).
  exists fw, fw. rewrite (GetFlyweight_reuse _ _ _ Hin). simpl. done.
Qed.

Lemma interning_identity_witness :
  ∃ fa fb,
    returned (GetFlyweight (mkSharedState "BMW" "M5" "red") main_factory) = Some fa
    ∧ returned (GetFlyweight (mkSharedState "BMW" "M5" "red")
                  (factory (GetFlyweight (mkSharedState "BMW" "M5" "red") main_factory)))
      = Some fb
    ∧ shared_state_ fa = shared_state_ fb
    ∧ GetKey (mkSharedState "BMW" "M5" "red") = GetKey (mkSharedState "BMW" "M5" "red")
    ∧ flyweights_ (factory (GetFlyweight (mkSharedState "BMW" "M5" "red")
                     (factory (GetFlyweight (mkSharedState "BMW" "M5" "red") main_factory))))
        !! GetKey (mkSharedState "BMW" "M5" "red") = Some fb
    ∧ printed (GetFlyweight (mkSharedState "BMW" "M5" "red")
                 (factory (GetFlyweight (mkSharedState "BMW" "M5" "red") main_factory)))
      = msg_reused
    ∧ count (factory (GetFlyweight (mkSharedState "BMW" "M5" "red")
                (factory (GetFlyweight (mkSharedState "BMW" "M5" "red") main_factory))))
      = count (factory (GetFlyweight (mkSharedState "BMW" "M5" "red") main_factory)).
Proof.
  apply (interning_identity main_factory
           (mkSharedState "BMW" "M5" "red") (mkSharedState "BMW" "M5" "red"));
    reflexivity.
Defined.

(** C2 as stated fails: two states that differ in brand and in model and
    share the composite key.  Interned one after the other into the empty
    registry they make one entry, and the second request is answered with
    the shared state of the first. *)
Lemma interning_distinctness_fails :
  brand_ (mkSharedState "Alfa_Romeo" "GT" "red") ≠ brand_ (mkSharedState "Alfa" "Romeo_GT" "red")
  ∧ GetKey (mkSharedState "Alfa_Romeo" "GT" "red") = GetKey (mkSharedState "Alfa" "Romeo_GT" "red")
  ∧ count (intern_all [mkSharedState "Alfa_Romeo" "GT" "red"; mkSharedState "Alfa" "Romeo_GT" "red"]
             (FlyweightFactory_new [])) = 1
  ∧ returned (GetFlyweight (mkSharedState "Alfa" "Romeo_GT" "red")
                (factory (GetFlyweight (mkSharedState "Alfa_Romeo" "GT" "red")
                            (FlyweightFactory_new []))))
    = Some (mkFlyweight (mkSharedState "Alfa_Romeo" "GT" "red")).
Proof. split; [discriminate | by vm_compute]. Qed.

(** C2, amended (interning distinctness).  When the brand and the model
    of [a] and of [b] hold no ["_"] and [a], [b] differ in a field, their
    keys differ, and after [GetFlyweight a] and [GetFlyweight b] each call
    has returned the entry stored under its own key.  For every registry
    and every sequence of requests: the keys stored afterwards are those
    stored before and those requested, so [count] grows by one per
    distinct key not yet stored (from the empty registry it is the number
    of distinct keys requested); a single call adds one when its key is
    absent and nothing otherwise. *)
Theorem interning_distinctness (ff : FlyweightFactory) (a b : SharedState)
    (reqs : list SharedState) :
  has_sep (brand_ a) = false → has_sep (model_ a) = false →
  has_sep (brand_ b) = false → has_sep (model_ b) = false →
  brand_ a ≠ brand_ b ∨ model_ a ≠ model_ b ∨ color_ a ≠ color_ b →
  GetKey a ≠ GetKey b
  ∧ (∃ fa fb,
       returned (GetFlyweight a ff) = Some fa
       ∧ returned (GetFlyweight b (factory (GetFlyweight a ff))) = Some fb
       ∧ flyweights_ (intern_all [a; b] ff) !! GetKey a = Some fa
       ∧ flyweights_ (intern_all [a; b] ff) !! GetKey b = Some fb)
  ∧ dom (flyweights_ (intern_all reqs ff))
    = dom (flyweights_ ff) ∪ list_to_set (GetKey <$> reqs)
  ∧ count (intern_all reqs (FlyweightFactory_new [])) = length (remove_dups (GetKey <$> reqs))
  ∧ count (factory (GetFlyweight a ff))
    = (if decide (GetKey a ∈ dom (flyweights_ ff)) then count ff else S (count ff)).
Proof.
  intros Hba Hma Hbb Hmb Hne.
  assert (GetKey a ≠ GetKey b) as Hk.
  { intros E. apply (GetKey_inj a b Hba Hma Hbb Hmb) in E. subst b.
    by destruct Hne as [?|[?|?]]. }
  split; [done |]. split; [| split; [| split]].
  - destruct (GetFlyweight_returns a ff) as (fa & Hra & Hia).
    destruct (GetFlyweight_returns b (factory (GetFlyweight a ff))) as (fb & Hrb & Hib).
    exists fa, fb. repeat split; [done | done | | done].
    apply (lookup_weaken _ _ _ _ Hia), GetFlyweight_subseteq.
  - apply dom_intern_all.
  - rewrite count_dom, dom_intern_all, FlyweightFactory_new_nil, dom_empty_L, union_empty_l_L.
    rewrite <- keys_remove_dups.
    apply size_list_to_set, NoDup_remove_dups.
  - rewrite !count_dom, dom_GetFlyweight. case_decide as Hin.
    + f_equal. by apply subseteq_union_1_L, singleton_subseteq_l.
    + rewrite size_union by (by apply disjoint_singleton_l).
      by rewrite size_singleton.
Qed.

Lemma interning_distinctness_witness :
  GetKey (mkSharedState "BMW" "M5" "red") ≠ GetKey (mkSharedState "BMW" "X1" "red")
  ∧ (∃ fa fb,
       returned (GetFlyweight (mkSharedState "BMW" "M5" "red") main_factory) = Some fa
       ∧ returned (GetFlyweight (mkSharedState "BMW" "X1" "red")
                     (factory (GetFlyweight (mkSharedState "BMW" "M5" "red") main_factory)))
         = Some fb
       ∧ flyweights_ (intern_all [mkSharedState "BMW" "M5" "red"; mkSharedState "BMW" "X1" "red"]
                        main_factory) !! GetKey (mkSharedState "BMW" "M5" "red") = Some fa
       ∧ flyweights_ (intern_all [mkSharedState "BMW" "M5" "red"; mkSharedState "BMW" "X1" "red"]
                        main_factory) !! GetKey (mkSharedState "BMW" "X1" "red") = Some fb)
  ∧ dom (flyweights_ (intern_all [mkSharedState "BMW" "X1" "red"] main_factory))
    = dom (flyweights_ main_factory) ∪ list_to_set (GetKey <$> [mkSharedState "BMW" "X1" "red"])
  ∧ count (intern_all [mkSharedState "BMW" "X1" "red"] (FlyweightFactory_new []))
    = length (remove_dups (GetKey <$> [mkSharedState "BMW" "X1" "red"]))
  ∧ count (factory (GetFlyweight (mkSharedState "BMW" "M5" "red") main_factory))
    = (if decide (GetKey (mkSharedState "BMW" "M5" "red") ∈ dom (flyweights_ main_factory))
       then count main_factory else S (count main_factory)).
Proof.
  apply (interning_distinctness main_factory
           (mkSharedState "BMW" "M5" "red") (mkSharedState "BMW" "X1" "red")
           [mkSharedState "BMW" "X1" "red"]);
    [reflexivity | reflexivity | reflexivity | reflexivity |].
  right; left. simpl. discriminate.
Defined.

(** C7 (count monotonicity).  [count] is the number of entries of the
    map, which holds one entry per key.  Neither a [GetFlyweight] call, nor
    a sequence of them, nor one more element in the constructor's
    initializer list removes or replaces an entry: the map before is
    included in the map after, and [count] does not decrease. *)
Theorem count_monotone (ff : FlyweightFactory) (ss : SharedState)
    (shared_states reqs : list SharedState) :
  count ff = length (map_to_list (flyweights_ ff))
  ∧ NoDup (map_to_list (flyweights_ ff)).*1
  ∧ flyweights_ ff ⊆ flyweights_ (factory (GetFlyweight ss ff))
  ∧ (count ff ≤ count (factory (GetFlyweight ss ff)))%nat
  ∧ flyweights_ ff ⊆ flyweights_ (intern_all reqs ff)
  ∧ (count ff ≤ count (intern_all reqs ff))%nat
  ∧ flyweights_ (FlyweightFactory_new shared_states)
    ⊆ flyweights_ (FlyweightFactory_new (shared_states ++ [ss]))
  ∧ (count (FlyweightFactory_new shared_states)
     ≤ count (FlyweightFactory_new (shared_states ++ [ss])))%nat.
Proof.
  unfold count. repeat split.
  - by rewrite length_map_to_list.
  - apply NoDup_fst_map_to_list.
  - apply GetFlyweight_subseteq.
  - apply map_subseteq_size, GetFlyweight_subseteq.
  - apply intern_all_subseteq.
  - apply map_subseteq_size, intern_all_subseteq.
  - rewrite FlyweightFactory_new_snoc. apply umap_insert_subseteq.
  - rewrite FlyweightFactory_new_snoc. apply map_subseteq_size, umap_insert_subseteq.
Qed.

(** C8 (scenario A).  From the empty registry, the first request of
    BMW/M5/red registers it and reports "created", the second reports
    "reused" (and so does a third), and [count] is 1 after each of them; a
    following request of BMW/X1/red reports "created" and leaves [count]
    at 2. *)
Theorem scenario_A :
  printed (GetFlyweight (mkSharedState "BMW" "M5" "red") (FlyweightFactory_new []))
  = msg_created
  ∧ printed (GetFlyweight (mkSharedState "BMW" "M5" "red")
               (intern_all [mkSharedState "BMW" "M5" "red"] (FlyweightFactory_new [])))
    = msg_reused
  ∧ printed (GetFlyweight (mkSharedState "BMW" "M5" "red")
               (intern_all [mkSharedState "BMW" "M5" "red"; mkSharedState "BMW" "M5" "red"]
                  (FlyweightFactory_new [])))
    = msg_reused
  ∧ count (intern_all [mkSharedState "BMW" "M5" "red"] (FlyweightFactory_new [])) = 1
  ∧ count (intern_all [mkSharedState "BMW" "M5" "red"; mkSharedState "BMW" "M5" "red"]
             (FlyweightFactory_new [])) = 1
  ∧ count (intern_all [mkSharedState "BMW" "M5" "red"; mkSharedState "BMW" "M5" "red";
                       mkSharedState "BMW" "M5" "red"] (FlyweightFactory_new [])) = 1
  ∧ printed (GetFlyweight (mkSharedState "BMW" "X1" "red")
               (intern_all [mkSharedState "BMW" "M5" "red"; mkSharedState "BMW" "M5" "red"]
                  (FlyweightFactory_new [])))
    = msg_created
  ∧ count (intern_all [mkSharedState "BMW" "M5" "red"; mkSharedState "BMW" "M5" "red";
                       mkSharedState "BMW" "X1" "red"] (FlyweightFactory_new [])) = 2.
Proof.
  assert (flyweights_ (FlyweightFactory_new []) !! GetKey (mkSharedState "BMW" "M5" "red") = None)
    as H0 by apply lookup_empty.
  split; [| split; [| by vm_compute]].
  - by rewrite (GetFlyweight_create _ _ H0).
  - unfold intern_all. simpl foldl. rewrite (GetFlyweight_create _ _ H0). simpl factory.
    erewrite GetFlyweight_reuse; [done |]. apply lookup_insert_eq.
Qed.

(** The same state registered through the constructor, as [main] does:
    the first request already takes the reuse path. *)
Example scenario_A_prepopulated :
  printed (GetFlyweight (mkSharedState "BMW" "M5" "red")
             (FlyweightFactory_new [mkSharedState "BMW" "M5" "red"]))
  = msg_reused
  ∧ count (FlyweightFactory_new [mkSharedState "BMW" "M5" "red"]) = 1.
Proof. by vm_compute. Qed.

(** C10 (key consistency).  The constructor establishes, and every
    [GetFlyweight] call preserves, that each entry of the map is stored
    under [GetKey] of the shared state its flyweight holds; so it holds of
    every registry built by the constructor and any sequence of calls. *)
Theorem registry_key_consistent (shared_states reqs : list SharedState)
    (ff : FlyweightFactory) (ss : SharedState) :
  key_consistent (FlyweightFactory_new shared_states)
  ∧ (key_consistent ff → key_consistent (factory (GetFlyweight ss ff)))
  ∧ (∀ key fw,
       flyweights_ (intern_all reqs (FlyweightFactory_new shared_states)) !! key = Some fw →
       GetKey (shared_state_ fw) = key).
Proof.
  split; [apply key_consistent_new |]. split; [apply key_consistent_GetFlyweight |].
  intros key fw H.
  by apply (key_consistent_intern_all reqs _ (key_consistent_new shared_states) key fw).
Qed.

End Flyweight_Proofs.

(** * Part V: properties of the Subject/Observer registry *)

Module Observer_Proofs.
Import Behavioral_Observer String_Facts.

(** ** The subscriber list *)

Lemma std_list_remove_filter (value : addr) (l : list addr) :
  std_list_remove value l = filter (fun x => x ≠ value) l.
Proof.
  induction l as [|x l IH]; [done |]. simpl. rewrite filter_cons.
  destruct (decide (x = value)) as [->|Hne].
  - by rewrite decide_False by (intros H; by apply H).
  - by rewrite decide_True, IH by done.
Qed.

Lemma std_list_remove_absent (value : addr) (l : list addr) :
  value ∉ l → std_list_remove value l = l.
Proof.
  induction l as [|x l IH]; [done |]. intros Hnot.
  apply not_elem_of_cons in Hnot as [Hne Hnot]. simpl.
  rewrite decide_False by done. by rewrite IH.
Qed.

Lemma std_list_remove_gone (value : addr) (l : list addr) :
  value ∉ std_list_remove value l.
Proof.
  induction l as [|x l IH]; simpl; [apply not_elem_of_nil |].
  destruct (decide (x = value)); [done |].
  apply not_elem_of_cons. split; [done | apply IH].
Qed.

Lemma std_list_remove_idemp (value : addr) (l : list addr) :
  std_list_remove value (std_list_remove value l) = std_list_remove value l.
Proof. apply std_list_remove_absent, std_list_remove_gone. Qed.

(** With at most one match, erasing all of them is erasing the first. *)
Lemma std_list_remove_once (value : addr) (l : list addr) :
  value ∉ erase_first value l → std_list_remove value l = erase_first value l.
Proof.
  induction l as [|x l IH]; [done |]. simpl.
  destruct (decide (x = value)) as [->|Hne].
  - apply std_list_remove_absent.
  - intros Hnot. apply not_elem_of_cons in Hnot as [_ Hnot]. by rewrite IH.
Qed.

(** ** Reading the heaps *)

Lemma observer_at_lt (o : addr) (w : World) (ob : Observer) :
  observer_at o w = Some ob → o < length (observers w).
Proof.
  unfold observer_at. intros H. apply lookup_lt_is_Some.
  destruct (observers w !! o); [by eexists | done].
Qed.

Lemma observer_at_put_eq (o : addr) (c : option Observer) (w : World) :
  o < length (observers w) → observer_at o (put_observer o c w) = c.
Proof.
  intros Hlt. unfold observer_at, put_observer. simpl.
  by rewrite list_lookup_insert_eq.
Qed.

Lemma observer_at_put_ne (o o' : addr) (c : option Observer) (w : World) :
  o ≠ o' → observer_at o' (put_observer o c w) = observer_at o' w.
Proof.
  intros Hne. unfold observer_at, put_observer. simpl.
  by rewrite list_lookup_insert_ne.
Qed.

Lemma subject_at_lt (s : addr) (w : World) (this : Subject) :
  subject_at s w = Some this → s < length (subjects w).
Proof.
  unfold subject_at. intros H. apply lookup_lt_is_Some.
  destruct (subjects w !! s); [by eexists | done].
Qed.

Lemma subject_at_put_eq (s : addr) (c : option Subject) (w : World) :
  s < length (subjects w) → subject_at s (put_subject s c w) = c.
Proof.
  intros Hlt. unfold subject_at, put_subject. simpl.
  by rewrite list_lookup_insert_eq.
Qed.

(** ** Text and events *)

Lemma render_all_app (t t' : list event) :
  render_all (t ++ t') = render_all t +:+ render_all t'.
Proof.
  induction t as [|e t IH]; [done |].
  simpl. rewrite IH. by rewrite append_assoc.
Qed.

Lemma update_calls_app (t t' : list event) :
  update_calls (t ++ t') = (update_calls t ++ update_calls t')%list.
Proof. apply omap_app. Qed.

Lemma drawn_app (t t' : list event) : drawn (t ++ t') = (drawn t ++ drawn t')%list.
Proof. apply omap_app. Qed.

(** ** [int] *)

Lemma int_wrap_small (z : Z) : (- 2 ^ 31 ≤ z ≤ INT_MAX)%Z → int_wrap z = z.
Proof.
  unfold INT_MAX, int_wrap. intros H.
  rewrite Z.mod_small by lia. lia.
Qed.

Lemma int_wrap_succ (z : Z) : int_wrap (int_wrap z + 1) = int_wrap (z + 1).
Proof.
  unfold int_wrap. f_equal.
  replace ((z + 2 ^ 31) `mod` 2 ^ 32 - 2 ^ 31 + 1 + 2 ^ 31)%Z
    with ((z + 2 ^ 31) `mod` 2 ^ 32 + 1)%Z by lia.
  rewrite Z.add_mod_idemp_l by lia. f_equal. lia.
Qed.

(** ** [Update], written out *)

Lemma Update_eq (o : addr) (msg : string) (w : World) :
  Update o msg w = this ← observer_at o w; Some (updated o msg this w).
Proof.
  unfold Update. destruct (observer_at o w) as [this|] eqn:H; [| done]. simpl.
  unfold PrintInfo. rewrite observer_at_put_eq by (simpl; by eapply observer_at_lt).
  unfold updated, emit, put_observer. simpl. by rewrite <- app_assoc.
Qed.

Lemma observer_at_updated (o o' : addr) (msg : string) (this : Observer) (w : World) :
  o < length (observers w) →
  observer_at o' (updated o msg this w)
  = if decide (o' = o) then Some (mkObserver msg (subject_ this) (number_ this))
    else observer_at o' w.
Proof.
  intros Hlt. unfold observer_at, updated. simpl. case_decide as Ho.
  - subst o'. by rewrite list_lookup_insert_eq.
  - by rewrite list_lookup_insert_ne.
Qed.

Lemma subject_at_updated (s o : addr) (msg : string) (this : Observer) (w : World) :
  subject_at s (updated o msg this w) = subject_at s w.
Proof. reflexivity. Qed.

(** ** Calls that construct nothing keep the numbering *)

Lemma same_numbering_refl (w : World) : same_numbering w w.
Proof. repeat split. intros o ob' H. by exists ob'. Qed.

Lemma same_numbering_trans (w1 w2 w3 : World) :
  same_numbering w1 w2 → same_numbering w2 w3 → same_numbering w1 w3.
Proof.
  intros (Hs & Hl & Hd & Ho) (Hs' & Hl' & Hd' & Ho').
  split; [congruence |]. split; [congruence |]. split; [congruence |].
  intros o ob3 H3. destruct (Ho' o ob3 H3) as (ob2 & H2 & E2).
  destruct (Ho o ob2 H2) as (ob1 & H1 & E1). exists ob1. split; [done | congruence].
Qed.

Lemma same_numbering_put_subject (s : addr) (c : option Subject) (w : World) :
  same_numbering w (put_subject s c w).
Proof. repeat split. intros o ob' H. by exists ob'. Qed.

Lemma same_numbering_emit (e : event) (w : World) :
  drawn [e] = [] → same_numbering w (emit e w).
Proof.
  intros He. split; [done |]. split; [done |]. split.
  - simpl. rewrite drawn_app, He. apply app_nil_r.
  - intros o ob' H. by exists ob'.
Qed.

Lemma same_numbering_updated (o : addr) (msg : string) (this : Observer) (w : World) :
  observer_at o w = Some this → same_numbering w (updated o msg this w).
Proof.
  intros Hthis. split; [done |]. split; [apply length_insert |]. split.
  - simpl. rewrite drawn_app. apply app_nil_r.
  - intros o' ob' H.
    rewrite observer_at_updated in H by (by eapply observer_at_lt).
    case_decide as Ho.
    + subst o'. exists this. by simplify_eq.
    + by exists ob'.
Qed.

Lemma same_numbering_free (o : addr) (e : event) (w : World) :
  drawn [e] = [] → same_numbering w (put_observer o None (emit e w)).
Proof.
  intros He. split; [done |]. split; [apply length_insert |]. split.
  - simpl. rewrite drawn_app, He. apply app_nil_r.
  - intros o' ob' H. exists ob'. split; [| done].
    destruct (decide (o = o')) as [->|Hne].
    + destruct (decide (o' < length (observers w))) as [Hlt|Hge].
      * by rewrite observer_at_put_eq in H.
      * unfold observer_at, put_observer in H. simpl in H.
        rewrite list_insert_ge in H by lia. done.
    + by rewrite observer_at_put_ne in H.
Qed.

Lemma Update_same_numbering (o : addr) (msg : string) (w w' : World) :
  Update o msg w = Some w' → same_numbering w w'.
Proof.
  rewrite Update_eq. destruct (observer_at o w) as [this|] eqn:H; [| done].
  simpl. intros [= <-]. by apply same_numbering_updated.
Qed.

Lemma Notify_loop_same_numbering (s : addr) (its : list addr) (w w' : World) :
  Notify_loop s its w = Some w' → same_numbering w w'.
Proof.
  revert w. induction its as [|it rest IH]; intros w; simpl.
  - intros [= <-]. apply same_numbering_refl.
  - destruct (subject_at s w) as [this|]; [| done]. simpl.
    destruct (Update it (message_ this) w) as [w1|] eqn:Hu; [| done]. simpl.
    intros Hrest. eapply same_numbering_trans; [by eapply Update_same_numbering | by apply IH].
Qed.

Lemma Notify_same_numbering (s : addr) (w w' : World) :
  Notify s w = Some w' → same_numbering w w'.
Proof.
  unfold Notify, HowManyObservers.
  destruct (subject_at s w) as [this|]; [| done]. simpl. intros H.
  eapply same_numbering_trans; [| by eapply Notify_loop_same_numbering].
  by apply same_numbering_emit.
Qed.

(** A member starts by reading the object it is called on: case on it,
    and close the case of a dead object. *)
Ltac on_object :=
  match goal with
  | |- context [subject_at ?s ?w] =>
      destruct (subject_at s w) as [?this|]; [simpl | done]
  | |- context [observer_at ?o ?w] =>
      destruct (observer_at o w) as [?this|]; [simpl | done]
  end.

Lemma step_same_numbering (c : call) (w w' : World) :
  is_construction c = false → step c w = Some w' → same_numbering w w'.
Proof.
  destruct c; simpl; try done; intros _.
  - intros [= <-]. repeat split. intros o ob' H. by exists ob'.
  - unfold Subject_delete. on_object.
    intros [= <-]. apply same_numbering_put_subject.
  - unfold Observer_delete. on_object.
    intros [= <-]. by apply same_numbering_free.
  - unfold Attach. on_object.
    intros [= <-]. apply same_numbering_put_subject.
  - unfold Detach. on_object.
    intros [= <-]. apply same_numbering_put_subject.
  - apply Notify_same_numbering.
  - unfold CreateMessage. on_object.
    intros H. apply Notify_same_numbering in H.
    eapply same_numbering_trans; [apply same_numbering_put_subject | done].
  - unfold HowManyObservers. on_object.
    intros [= <-]. by apply same_numbering_emit.
  - unfold SomeBusinessLogic. on_object.
    destruct (Notify s _) as [w1|] eqn:Hn; [| done]. simpl. intros [= <-].
    apply Notify_same_numbering in Hn.
    eapply same_numbering_trans; [apply same_numbering_put_subject |].
    eapply same_numbering_trans; [done | by apply same_numbering_emit].
  - apply Update_same_numbering.
  - unfold RemoveMeFromTheList, Detach. on_object. on_object.
    intros [= <-].
    eapply same_numbering_trans; [apply same_numbering_put_subject | by apply same_numbering_emit].
  - unfold PrintInfo. on_object.
    intros [= <-]. by apply same_numbering_emit.
Qed.

(** ** The constructor, written out *)

Lemma Observer_new_eq (subject : addr) (w : World) :
  Observer_new subject w
  = this ← subject_at subject w;
    Some (mkWorld (int_wrap (static_number_ w + 1))
            (<[subject := Some (Subject_Attach (length (observers w)) this)]> (subjects w))
            (observers w ++ [Some (mkObserver EmptyString subject
                                     (int_wrap (static_number_ w + 1)))])
            (trace w ++ [EvHi (int_wrap (static_number_ w + 1))])).
Proof.
  unfold Observer_new, Attach. by destruct (subject_at subject w).
Qed.

Lemma step_length (c : call) (w w' : World) :
  step c w = Some w' →
  length (observers w') = length (observers w) + (if is_construction c then 1 else 0).
Proof.
  destruct (is_construction c) eqn:Hc.
  - destruct c; try done. simpl. rewrite Observer_new_eq.
    destruct (subject_at subject w); [| done]. intros [= <-]. simpl.
    by rewrite length_app.
  - intros H. destruct (step_same_numbering c w w' Hc H) as (_ & Hl & _). lia.
Qed.

(** ** The numbering invariant *)

Lemma numbered_init : numbered init.
Proof. repeat split. intros o ob H. by destruct o. Qed.

Lemma numbered_step (c : call) (w w' : World) :
  numbered w → step c w = Some w' → numbered w'.
Proof.
  intros (Hs & Hd & Ho). destruct (is_construction c) eqn:Hc.
  - destruct c; try done. simpl. rewrite Observer_new_eq.
    destruct (subject_at subject w); [| done]. intros [= <-].
    unfold numbered. simpl. rewrite length_app. simpl.
    assert (int_wrap (static_number_ w + 1)
            = int_wrap (Z.of_nat (S (length (observers w))))) as Hn.
    { rewrite Hs, int_wrap_succ. f_equal. lia. }
    split; [rewrite Hn; f_equal; lia |]. split.
    + rewrite drawn_app, Hd, Nat.add_1_r, seq_S, fmap_app. simpl.
      by rewrite Hn.
    + intros o ob. unfold observer_at. simpl.
      destruct (decide (o < length (observers w))) as [Hlt|Hge].
      * rewrite lookup_app_l by done. apply Ho.
      * rewrite lookup_app_r by lia.
        destruct (o - length (observers w)) as [|k] eqn:Hk; [| by destruct k].
        simpl. intros [= <-]. simpl. rewrite Hn. do 3 f_equal. lia.
  - intros H. destruct (step_same_numbering c w w' Hc H) as (Hs' & Hl' & Hd' & Ho').
    split; [congruence |]. split; [congruence |].
    intros o ob' Hob'. destruct (Ho' o ob' Hob') as (ob & Hob & ->). by apply Ho.
Qed.

Lemma run_numbered (cs : list call) (w w' : World) :
  numbered w → run cs w = Some w' →
  numbered w' ∧ length (observers w') = length (observers w) + constructions cs.
Proof.
  revert w. induction cs as [|c cs IH]; intros w Hw; simpl.
  - intros [= <-]. split; [done | lia].
  - destruct (step c w) as [w1|] eqn:Hstep; [| done]. simpl. intros Hrun.
    destruct (IH w1 (numbered_step c w w1 Hw Hstep) Hrun) as [Hn Hl].
    split; [done |]. rewrite Hl, (step_length c w w1 Hstep). lia.
Qed.

Lemma run_app (cs cs' : list call) (w : World) :
  run (cs ++ cs') w = w1 ← run cs w; run cs' w1.
Proof.
  revert w. induction cs as [|c cs IH]; intros w; [done |].
  simpl. destruct (step c w) as [w1|]; [| done]. simpl. apply IH.
Qed.

(** ** Constructing without end *)

Lemma constructions_replicate (n : nat) (s : addr) :
  constructions (replicate n (NewObserver s)) = n.
Proof. induction n as [|n IH]; [done |]. simpl. by rewrite IH. Qed.

Lemma run_constructions_total (n : nat) (s : addr) (w : World) :
  is_Some (subject_at s w) → is_Some (run (replicate n (NewObserver s)) w).
Proof.
  revert w. induction n as [|n IH]; intros w Hs; [by eexists |].
  simpl. rewrite Observer_new_eq. destruct Hs as [this Hthis]. rewrite Hthis. simpl.
  apply IH. unfold subject_at. simpl.
  rewrite list_lookup_insert_eq by (by eapply subject_at_lt). by eexists.
Qed.

(** After 2^31 constructions the number drawn last is below the one
    drawn before it. *)
Lemma numbering_overflows_at (n : nat) :
  Z.of_nat n = (2 ^ 31)%Z →
  ∃ w, run (NewSubject :: replicate n (NewObserver 0)) init = Some w
       ∧ drawn (trace w) !! (n - 2) = Some (2 ^ 31 - 1)%Z
       ∧ drawn (trace w) !! (n - 1) = Some (- 2 ^ 31)%Z.
Proof.
  intros Hn.
  destruct (run_constructions_total n 0 (Subject_new init)) as [w Hw]; [by eexists |].
  exists w. split; [exact Hw |].
  assert (numbered (Subject_new init)) as H0.
  { repeat split. intros o ob H. by destruct o. }
  destruct (run_numbered _ _ _ H0 Hw) as [(_ & Hd & _) Hl].
  rewrite constructions_replicate in Hl. simpl in Hl.
  rewrite Hd, Hl, !list_lookup_fmap. split.
  - rewrite lookup_seq_lt by lia. simpl.
    replace (Z.of_nat (S (n - 2))) with (2 ^ 31 - 1)%Z by lia. reflexivity.
  - rewrite lookup_seq_lt by lia. simpl.
    replace (Z.of_nat (S (n - 1))) with (2 ^ 31)%Z by lia. reflexivity.
Qed.

(** ** [Notify] on live observers runs to its end *)

Lemma notification_updated (o o' : addr) (msg msg' : string) (this : Observer) (w : World) :
  observer_at o w = Some this →
  notification (updated o msg this w) msg' o' = notification w msg' o'.
Proof.
  intros H. unfold notification.
  rewrite observer_at_updated by (by eapply observer_at_lt).
  case_decide as Ho; [| done]. subst o'. by rewrite H.
Qed.

Lemma Notify_loop_total (s : addr) (this : Subject) (its : list addr) (w : World) :
  subject_at s w = Some this → all_live its w →
  ∃ w', Notify_loop s its w = Some w'
        ∧ static_number_ w' = static_number_ w
        ∧ subjects w' = subjects w
        ∧ trace w' = (trace w ++ (its ≫= notification w (message_ this)))%list
        ∧ ∀ o, observer_at o w'
               = if decide (o ∈ its) then received (message_ this) <$> observer_at o w
                 else observer_at o w.
Proof.
  revert w. induction its as [|it rest IH]; intros w Hs Hlive.
  - exists w. do 3 (split; [done |]). split; [simpl; by rewrite app_nil_r |].
    intros o. rewrite decide_False; [done | apply not_elem_of_nil].
  - apply Forall_cons in Hlive as [[ob Hob] Hrest].
    assert (it < length (observers w)) as Hlt by (by eapply observer_at_lt).
    simpl. rewrite Hs. simpl. rewrite Update_eq, Hob. simpl.
    destruct (IH (updated it (message_ this) ob w)) as (w' & Hrun & Hst & Hsub & Htr & Hobs).
    { done. }
    { eapply Forall_impl; [exact Hrest |]. intros o Ho. simpl.
      rewrite observer_at_updated by done. by case_decide. }
    exists w'. split; [done |]. split; [done |]. split; [done |]. split.
    + assert (notification w (message_ this) it
              = [EvUpdate it (message_ this); EvNewMessage (number_ ob) (message_ this)])
        as Hit by (unfold notification; by rewrite Hob).
      rewrite Htr, Hit. simpl. rewrite <- app_assoc. simpl. do 3 f_equal.
      apply list_bind_ext; [| done]. intros o. by apply notification_updated.
    + intros o. rewrite Hobs, observer_at_updated by done.
      destruct (decide (o = it)) as [->|Hne].
      * rewrite (decide_True (P := it ∈ it :: rest)) by apply list_elem_of_here.
        rewrite Hob. by case_decide.
      * destruct (decide (o ∈ rest)) as [Hin|Hnin].
        -- by rewrite decide_True by (by apply list_elem_of_further).
        -- rewrite decide_False; [done |].
           intros Hin. apply elem_of_cons in Hin as [?|?]; done.
Qed.

Lemma update_calls_notifications (w : World) (msg : string) (l : list addr) :
  all_live l w →
  update_calls (l ≫= notification w msg) = (fun o => (o, msg)) <$> l.
Proof.
  induction 1 as [|o l [ob Hob] _ IH]; [done |].
  rewrite bind_cons, update_calls_app, IH. unfold notification at 1. by rewrite Hob.
Qed.

Lemma Notify_total (s : addr) (this : Subject) (w : World) :
  subject_at s w = Some this → all_live (list_observer_ this) w →
  ∃ w', Notify s w = Some w'
        ∧ static_number_ w' = static_number_ w
        ∧ subjects w' = subjects w
        ∧ trace w'
          = (trace w ++ EvHowMany (length (list_observer_ this))
                        :: (list_observer_ this ≫= notification w (message_ this)))%list
        ∧ ∀ o, observer_at o w'
               = if decide (o ∈ list_observer_ this)
                 then received (message_ this) <$> observer_at o w
                 else observer_at o w.
Proof.
  intros Hs Hlive. unfold Notify, HowManyObservers. rewrite Hs. simpl.
  destruct (Notify_loop_total s this (list_observer_ this)
              (emit (EvHowMany (Subject_size this)) w) Hs Hlive)
    as (w' & Hrun & Hst & Hsub & Htr & Hobs).
  exists w'. split; [done |]. split; [done |]. split; [done |]. split; [| done].
  rewrite Htr. simpl. by rewrite <- app_assoc.
Qed.

Lemma Notify_calls (s : addr) (this : Subject) (w w' : World) :
  all_live (list_observer_ this) w →
  trace w'
  = (trace w ++ EvHowMany (length (list_observer_ this))
                :: (list_observer_ this ≫= notification w (message_ this)))%list →
  update_calls (trace w')
  = (update_calls (trace w) ++ ((fun o => (o, message_ this)) <$> list_observer_ this))%list.
Proof.
  intros Hlive ->. rewrite update_calls_app. f_equal.
  by apply (update_calls_notifications w (message_ this)).
Qed.

Lemma attach_all (this : Subject) (os : list addr) :
  list_observer_ (foldl (fun sub o => Subject_Attach o sub) this os)
  = (list_observer_ this ++ os)%list.
Proof.
  revert this. induction os as [|o os IH]; intros this; simpl.
  - by rewrite app_nil_r.
  - rewrite IH. simpl. by rewrite <- app_assoc.
Qed.

(** ** [ClientCode], as a check of the embedding against the output the
    source documents *)

Example ClientCode_runs : cout <$> run ClientCode init = Some ClientCode_output.
Proof. vm_compute. reflexivity. Qed.

(** ** The claims *)

(** C3 as stated fails: an observer attached twice has two entries, and
    one [Detach] erases both, where erasing the first match would leave
    one. *)
Lemma detach_erases_every_match :
  list_observer_ (Subject_Attach 0 (Subject_Attach 0 (mkSubject [] EmptyString))) = [0; 0]
  ∧ list_observer_
      (Subject_Detach 0 (Subject_Attach 0 (Subject_Attach 0 (mkSubject [] EmptyString))))
    = []
  ∧ erase_first 0 [0; 0] = [0]
  ∧ Subject_size
      (Subject_Detach 0 (Subject_Attach 0 (Subject_Attach 0 (mkSubject [] EmptyString))))
    = 0.
Proof. by vm_compute. Qed.

(** C3, amended (detach semantics).  [Detach] erases every entry equal to
    the observer and keeps the others in their order; that is the first
    match alone whenever no match is left behind it, as when the observer
    was attached once.  It leaves the message alone; when the observer is
    absent the subject is unchanged; a second [Detach] of the same
    observer changes nothing, so the size stays; and on a live subject the
    call has a result, whatever the observer. *)
Theorem detach_semantics (observer s : addr) (this : Subject) (w : World) :
  list_observer_ (Subject_Detach observer this)
  = filter (fun x => x ≠ observer) (list_observer_ this)
  ∧ message_ (Subject_Detach observer this) = message_ this
  ∧ (observer ∉ erase_first observer (list_observer_ this) →
     list_observer_ (Subject_Detach observer this)
     = erase_first observer (list_observer_ this))
  ∧ (observer ∉ list_observer_ this → Subject_Detach observer this = this)
  ∧ Subject_Detach observer (Subject_Detach observer this) = Subject_Detach observer this
  ∧ Subject_size (Subject_Detach observer (Subject_Detach observer this))
    = Subject_size (Subject_Detach observer this)
  ∧ (subject_at s w = Some this →
     Detach s observer w = Some (put_subject s (Some (Subject_Detach observer this)) w)).
Proof.
  assert (Subject_Detach observer (Subject_Detach observer this)
          = Subject_Detach observer this) as Hidem.
  { unfold Subject_Detach. simpl. by rewrite std_list_remove_idemp. }
  split; [apply std_list_remove_filter |]. split; [done |].
  split; [apply std_list_remove_once |]. split; [| split; [done |]; split].
  - intros Hnot. unfold Subject_Detach. rewrite std_list_remove_absent by done.
    by destruct this.
  - by rewrite Hidem.
  - intros Hs. unfold Detach. by rewrite Hs.
Qed.

(** C4 as stated fails: [Notify] on a subject without subscribers writes
    the announcement of [HowManyObservers]. *)
Lemma notify_empty_prints :
  (list_observer_ <$> subject_at 0 (Subject_new init)) = Some []
  ∧ cout (Subject_new init) = EmptyString
  ∧ cout <$> Notify 0 (Subject_new init) = Some ("There are 0 observers in the list." +:+ nl)
  ∧ cout <$> Notify 0 (Subject_new init) ≠ Some (cout (Subject_new init)).
Proof. split; [done |]. split; [done |]. split; [by vm_compute | by vm_compute]. Qed.

(** C4, amended (notify on the empty list).  On a live subject without
    subscribers [Notify] calls no [Update], leaves the counter and both
    heaps as they are, and writes one line, the announcement "There are 0
    observers in the list.". *)
Theorem notify_empty (s : addr) (this : Subject) (w : World) :
  subject_at s w = Some this →
  list_observer_ this = [] →
  ∃ w', Notify s w = Some w'
        ∧ update_calls (trace w') = update_calls (trace w)
        ∧ static_number_ w' = static_number_ w
        ∧ subjects w' = subjects w
        ∧ observers w' = observers w
        ∧ trace w' = (trace w ++ [EvHowMany 0])%list
        ∧ cout w' = cout w +:+ "There are 0 observers in the list." +:+ nl.
Proof.
  intros Hs Hnil. exists (emit (EvHowMany 0) w).
  unfold Notify, HowManyObservers, Subject_size. rewrite Hs. simpl. rewrite Hnil.
  split; [done |]. split.
  { simpl. rewrite update_calls_app. apply app_nil_r. }
  do 4 (split; [done |]).
  unfold cout. simpl. rewrite render_all_app. simpl.
  by rewrite append_nil_r.
Qed.

Lemma notify_empty_witness :
  subject_at 0 (Subject_new init) = Some (mkSubject [] EmptyString)
  ∧ ∃ w', Notify 0 (Subject_new init) = Some w'
          ∧ update_calls (trace w') = update_calls (trace (Subject_new init))
          ∧ static_number_ w' = static_number_ (Subject_new init)
          ∧ subjects w' = subjects (Subject_new init)
          ∧ observers w' = observers (Subject_new init)
          ∧ trace w' = (trace (Subject_new init) ++ [EvHowMany 0])%list
          ∧ cout w' = cout (Subject_new init) +:+ "There are 0 observers in the list." +:+ nl.
Proof.
  split; [reflexivity |].
  apply (notify_empty 0 (mkSubject [] EmptyString) (Subject_new init)); reflexivity.
Defined.

(** C5 as stated fails: the counter is an [int].  A subject and 2^31
    observers constructed on it: the program runs, the number drawn next
    to last is 2147483647 and the last one is -2147483648. *)
Lemma numbering_overflows :
  ∃ w, run (NewSubject :: replicate (Z.to_nat (2 ^ 31)) (NewObserver 0)) init = Some w
       ∧ drawn (trace w) !! (Z.to_nat (2 ^ 31) - 2) = Some (2 ^ 31 - 1)%Z
       ∧ drawn (trace w) !! (Z.to_nat (2 ^ 31) - 1) = Some (- 2 ^ 31)%Z.
Proof. apply numbering_overflows_at. apply Z2Nat.id. lia. Qed.

(** C5, amended (observer numbering).  The counter starts at 0.  In every
    program that runs from the initial state and constructs N observers,
    N at most [INT_MAX], whatever calls come in between: the counter ends
    at N; the numbers drawn are 1, 2, ..., N in the order of construction,
    hence strictly increasing and without repetition; a live observer
    holds the number drawn at its construction; it still holds it after
    any further calls; and a construction on a live subject has a result,
    in which the counter, the number drawn and the number of the new
    observer are the old counter plus one (as an [int]). *)
Theorem observer_numbering (cs : list call) (w : World) :
  run cs init = Some w →
  (Z.of_nat (constructions cs) ≤ INT_MAX)%Z →
  static_number_ init = 0%Z
  ∧ static_number_ w = Z.of_nat (constructions cs)
  ∧ drawn (trace w) = Z.of_nat <$> seq 1 (constructions cs)
  ∧ (∀ i j a b, i < j →
       drawn (trace w) !! i = Some a → drawn (trace w) !! j = Some b → (a < b)%Z)
  ∧ (∀ o ob, observer_at o w = Some ob → drawn (trace w) !! o = Some (number_ ob))
  ∧ (∀ cs' w' o ob ob',
       run cs' w = Some w' →
       observer_at o w = Some ob → observer_at o w' = Some ob' →
       number_ ob' = number_ ob)
  ∧ (∀ s, is_Some (subject_at s w) →
       ∃ w', Observer_new s w = Some w'
             ∧ static_number_ w' = int_wrap (Z.of_nat (constructions cs) + 1)
             ∧ drawn (trace w') = (drawn (trace w) ++ [static_number_ w'])%list
             ∧ number_ <$> observer_at (constructions cs) w' = Some (static_number_ w')).
Proof.
  intros Hrun Hmax.
  destruct (run_numbered cs init w numbered_init Hrun) as [Hw Hl]. simpl in Hl.
  pose proof Hw as (Hs & Hd & Ho). unfold INT_MAX in Hmax.
  assert (drawn (trace w) = Z.of_nat <$> seq 1 (constructions cs)) as Hd'.
  { rewrite Hd, Hl. apply list_fmap_ext. intros i x Hx.
    apply lookup_seq in Hx as [-> Hlt]. apply int_wrap_small. unfold INT_MAX. lia. }
  assert (static_number_ w = Z.of_nat (constructions cs)) as Hs'.
  { rewrite Hs, Hl. apply int_wrap_small. unfold INT_MAX. lia. }
  split; [done |]. split; [done |]. split; [done |]. split; [| split; [| split]].
  - intros i j a b Hij. rewrite Hd', !list_lookup_fmap.
    intros Ha Hb.
    destruct (seq 1 (constructions cs) !! i) as [x|] eqn:Hx; [| done].
    destruct (seq 1 (constructions cs) !! j) as [y|] eqn:Hy; [| done].
    apply lookup_seq in Hx as [-> _]. apply lookup_seq in Hy as [-> _].
    simpl in Ha, Hb. simplify_eq. lia.
  - intros o ob Hob. rewrite Hd', list_lookup_fmap.
    pose proof (observer_at_lt o w ob Hob) as Hlt.
    rewrite lookup_seq_lt by lia. simpl. f_equal.
    rewrite (Ho o ob Hob). symmetry. apply int_wrap_small. unfold INT_MAX. lia.
  - intros cs' w' o ob ob' Hrun' Hob Hob'.
    destruct (run_numbered cs' w w' Hw Hrun') as [(_ & _ & Ho') _].
    by rewrite (Ho o ob Hob), (Ho' o ob' Hob').
  - intros s [this Hthis]. rewrite Observer_new_eq, Hthis. simpl.
    eexists. split; [reflexivity |]. simpl.
    split; [by rewrite Hs' |]. split; [by rewrite drawn_app |].
    unfold observer_at. simpl.
    by rewrite lookup_app_r, Hl, Nat.sub_diag by lia.
Qed.

Lemma observer_numbering_witness :
  ∃ w,
    run [NewSubject; NewObserver 0; NewObserver 0; CallRemoveMeFromTheList 0;
         NewObserver 0; CallCreateMessage 0 None] init = Some w
    ∧ (Z.of_nat (constructions
                   [NewSubject; NewObserver 0; NewObserver 0; CallRemoveMeFromTheList 0;
                    NewObserver 0; CallCreateMessage 0 None]) ≤ INT_MAX)%Z
    ∧ drawn (trace w) = [1; 2; 3]%Z
    ∧ number_ <$> observer_at 2 w = Some 3%Z.
Proof.
  eexists. split; [vm_compute; reflexivity |]. split; [by vm_compute |].
  match goal with
  | |- drawn (trace ?w) = _ ∧ _ =>
      destruct (observer_numbering
                  [NewSubject; NewObserver 0; NewObserver 0; CallRemoveMeFromTheList 0;
                   NewObserver 0; CallCreateMessage 0 None] w)
        as (_ & _ & Hd & _);
      [vm_compute; reflexivity | by vm_compute |]
  end.
  split; [exact Hd |]. reflexivity.
Defined.

(** C6 (order preservation).  [Attach] appends, so the list of a subject
    is its observers in the order of attachment.  On a live subject whose
    subscribers are live, [Notify] runs to its end and calls [Update] once
    for each entry of the list, in the order of the list, each time with
    the subject's message; the subject is unchanged, every subscriber has
    received the message, the other observers are untouched, and the text
    written is the announcement followed by one line per entry. *)
Theorem notify_order (s : addr) (this : Subject) (w : World) (os : list addr) :
  subject_at s w = Some this →
  all_live (list_observer_ this) w →
  list_observer_ (foldl (fun sub o => Subject_Attach o sub) (mkSubject [] EmptyString) os) = os
  ∧ ∃ w', Notify s w = Some w'
        ∧ update_calls (trace w')
          = (update_calls (trace w)
             ++ ((fun o => (o, message_ this)) <$> list_observer_ this))%list
        ∧ subject_at s w' = Some this
        ∧ (∀ o, o ∈ list_observer_ this →
             message_from_subject_ <$> observer_at o w' = Some (message_ this))
        ∧ (∀ o, o ∉ list_observer_ this → observer_at o w' = observer_at o w)
        ∧ cout w'
          = cout w +:+ render (EvHowMany (length (list_observer_ this)))
            +:+ render_all (list_observer_ this ≫= notification w (message_ this)).
Proof.
  intros Hs Hlive. split; [apply (attach_all (mkSubject [] EmptyString)) |].
  destruct (Notify_total s this w Hs Hlive) as (w' & Hrun & _ & Hsub & Htr & Hobs).
  exists w'. split; [done |]. split; [by apply (Notify_calls s this w w') |].
  split; [unfold subject_at; by rewrite Hsub |]. split; [| split].
  - intros o Hin. rewrite Hobs, decide_True by done.
    apply (proj1 (Forall_forall _ _) Hlive) in Hin as [ob ->]. done.
  - intros o Hnin. by rewrite Hobs, decide_False.
  - unfold cout. rewrite Htr, render_all_app. done.
Qed.

Lemma notify_order_witness :
  subject_at 0 three_observers = Some (mkSubject [0; 1; 2] EmptyString)
  ∧ all_live [0; 1; 2] three_observers
  ∧ ∃ w', Notify 0 three_observers = Some w'
          ∧ update_calls (trace w')
            = [(0, EmptyString); (1, EmptyString); (2, EmptyString)].
Proof.
  assert (all_live [0; 1; 2] three_observers) as Hlive.
  { repeat constructor; by eexists. }
  split; [reflexivity |]. split; [exact Hlive |].
  destruct (notify_order 0 (mkSubject [0; 1; 2] EmptyString) three_observers []
              eq_refl Hlive)
    as (_ & w' & Hrun & Hcalls & _).
  exists w'. split; [exact Hrun | exact Hcalls].
Defined.

(** C9 (default message).  The default argument of [CreateMessage] is
    "Empty": a call without argument is the call with "Empty".  On a live
    subject whose subscribers are live it runs to its end, leaves
    "Empty" as the subject's message and the list as it was, and calls
    [Update] with "Empty" once for each entry, in order; every subscriber
    then holds "Empty" as the message received. *)
Theorem create_message_default (s : addr) (this : Subject) (w : World) :
  subject_at s w = Some this →
  all_live (list_observer_ this) w →
  CreateMessage_default = "Empty"
  ∧ CreateMessage s None w = CreateMessage s (Some "Empty") w
  ∧ ∃ w', CreateMessage s None w = Some w'
        ∧ subject_at s w' = Some (mkSubject (list_observer_ this) "Empty")
        ∧ update_calls (trace w')
          = (update_calls (trace w) ++ ((fun o => (o, "Empty")) <$> list_observer_ this))%list
        ∧ (∀ o, o ∈ list_observer_ this →
             message_from_subject_ <$> observer_at o w' = Some "Empty").
Proof.
  intros Hs Hlive. split; [done |]. split; [done |].
  unfold CreateMessage. rewrite Hs. simpl.
  set (this' := mkSubject (list_observer_ this) CreateMessage_default).
  set (w0 := put_subject s (Some this') w).
  assert (subject_at s w0 = Some this') as Hs0.
  { apply subject_at_put_eq. by eapply subject_at_lt. }
  destruct (Notify_total s this' w0 Hs0 Hlive) as (w' & Hrun & _ & Hsub & Htr & Hobs).
  exists w'. split; [done |]. split; [unfold subject_at; by rewrite Hsub |].
  split; [by apply (Notify_calls s this' w0 w') |].
  intros o Hin. simpl in Hobs. rewrite Hobs, decide_True by done.
  apply (proj1 (Forall_forall _ _) Hlive) in Hin as [ob Hob].
  change (observer_at o w0) with (observer_at o w). by rewrite Hob.
Qed.

Lemma create_message_default_witness :
  subject_at 0 three_observers = Some (mkSubject [0; 1; 2] EmptyString)
  ∧ all_live [0; 1; 2] three_observers
  ∧ ∃ w', CreateMessage 0 None three_observers = Some w'
          ∧ subject_at 0 w' = Some (mkSubject [0; 1; 2] "Empty")
          ∧ update_calls (trace w') = [(0, "Empty"); (1, "Empty"); (2, "Empty")].
Proof.
  assert (all_live [0; 1; 2] three_observers) as Hlive.
  { repeat constructor; by eexists. }
  split; [reflexivity |]. split; [exact Hlive |].
  destruct (create_message_default 0 (mkSubject [0; 1; 2] EmptyString) three_observers
              eq_refl Hlive)
    as (_ & _ & w' & Hrun & Hsub & Hcalls & _).
  exists w'. split; [exact Hrun |]. split; [exact Hsub | exact Hcalls].
Defined.

End Observer_Proofs.

(** * Part VI: the rest of the Flyweight file *)

Module Flyweight_Coverage.
Import Structural_Flyweight String_Facts Flyweight_Proofs.

(** ** One call, key by key *)

Lemma lookup_GetFlyweight (ss : SharedState) (ff : FlyweightFactory) (key : string) :
  flyweights_ (factory (GetFlyweight ss ff)) !! key
  = match flyweights_ ff !! key with
    | Some fw => Some fw
    | None => if decide (GetKey ss = key) then Some (Flyweight_of ss) else None
    end.
Proof.
  destruct (flyweights_ ff !! GetKey ss) as [fw|] eqn:H.
  - rewrite (GetFlyweight_reuse _ _ _ H). simpl.
    destruct (flyweights_ ff !! key) eqn:Hk; [done |].
    case_decide; [congruence | done].
  - rewrite (GetFlyweight_create _ _ H). simpl.
    destruct (decide (GetKey ss = key)) as [<-|Hne].
    + by rewrite lookup_insert_eq, H.
    + rewrite lookup_insert_ne by done. by destruct (flyweights_ ff !! key).
Qed.

Lemma lookup_intern_all (l : list SharedState) (ff : FlyweightFactory) (key : string) :
  flyweights_ (intern_all l ff) !! key
  = match flyweights_ ff !! key with
    | Some fw => Some fw
    | None => Flyweight_of <$> first_with_key key l
    end.
Proof.
  revert ff. induction l as [|ss l IH]; intros ff.
  - simpl. by destruct (flyweights_ ff !! key).
  - rewrite intern_all_cons, IH, lookup_GetFlyweight. simpl.
    destruct (flyweights_ ff !! key); [done |]. by case_decide.
Qed.

(** The constructor does what the same requests do on an empty registry. *)
Lemma FlyweightFactory_new_intern_all (l : list SharedState) :
  FlyweightFactory_new l = intern_all l (FlyweightFactory_new []).
Proof.
  unfold FlyweightFactory_new, intern_all. generalize (∅ : gmap string Flyweight).
  induction l as [|ss l IH]; intros m; [done |]. simpl. rewrite IH. do 2 f_equal.
  unfold GetFlyweight, umap_insert. simpl.
  destruct (m !! GetKey ss); [done |]. simpl. done.
Qed.

(** ** Registries of plain states *)

Lemma plain_inj (a b : SharedState) :
  plain a = true → plain b = true → GetKey a = GetKey b → a = b.
Proof.
  unfold plain. intros Ha Hb.
  apply andb_true_iff in Ha as [Ha1 Ha2]. apply andb_true_iff in Hb as [Hb1 Hb2].
  apply negb_true_iff in Ha1, Ha2, Hb1, Hb2. by apply GetKey_inj.
Qed.

Lemma first_with_key_Some (key : string) (l : list SharedState) (ss : SharedState) :
  first_with_key key l = Some ss → ss ∈ l ∧ GetKey ss = key.
Proof.
  induction l as [|x l IH]; [done |]. simpl. case_decide as Hx.
  - intros [= <-]. split; [apply list_elem_of_here | done].
  - intros H. destruct (IH H) as [Hin Hk]. split; [by apply list_elem_of_further | done].
Qed.

Lemma first_with_key_None (key : string) (l : list SharedState) :
  first_with_key key l = None ↔ key ∉ GetKey <$> l.
Proof.
  induction l as [|x l IH]; simpl.
  - split; [intros _; apply not_elem_of_nil | done].
  - rewrite not_elem_of_cons. case_decide as Hx.
    + split; [done | intros [Hne _]; by destruct Hne].
    + rewrite IH. split; [intros H; split; [congruence | done] | by intros [_ H]].
Qed.

(** What a registry built from plain states answers to a plain request. *)
Lemma plain_registry_lookup (shared_states reqs : list SharedState) (ss : SharedState)
    (fw : Flyweight) :
  Forall (fun x => plain x = true) shared_states →
  Forall (fun x => plain x = true) reqs →
  plain ss = true →
  flyweights_ (intern_all reqs (FlyweightFactory_new shared_states)) !! GetKey ss = Some fw →
  fw = Flyweight_of ss.
Proof.
  intros Hinit Hreqs Hss.
  rewrite FlyweightFactory_new_intern_all, !lookup_intern_all, FlyweightFactory_new_nil.
  rewrite lookup_empty.
  assert (∀ l x, Forall (fun x => plain x = true) l →
                 first_with_key (GetKey ss) l = Some x → x = ss) as Hfirst.
  { intros l x Hl Hx. apply first_with_key_Some in Hx as [Hin Hk].
    apply (proj1 (Forall_forall _ _) Hl) in Hin. by apply plain_inj. }
  destruct (first_with_key (GetKey ss) shared_states) as [x|] eqn:Hx; simpl.
  - intros [= <-]. f_equal. by apply (Hfirst shared_states).
  - destruct (first_with_key (GetKey ss) reqs) as [y|] eqn:Hy; [| done]. simpl.
    intros [= <-]. f_equal. by apply (Hfirst reqs).
Qed.

Lemma intern_round_trip_aux (shared_states reqs : list SharedState) (ss : SharedState) :
  Forall (fun x => plain x = true) shared_states →
  Forall (fun x => plain x = true) reqs →
  plain ss = true →
  returned (GetFlyweight ss (intern_all reqs (FlyweightFactory_new shared_states)))
  = Some (Flyweight_of ss).
Proof.
  intros Hinit Hreqs Hss.
  destruct (GetFlyweight_returns ss (intern_all reqs (FlyweightFactory_new shared_states)))
    as (fw & Hret & Hin).
  rewrite Hret. f_equal. rewrite <- intern_all_snoc in Hin.
  apply (plain_registry_lookup shared_states (reqs ++ [ss]) ss fw); try done.
  apply Forall_app. split; [done |]. by apply Forall_singleton.
Qed.

(** ** The text of [ListFlyweights] *)



(** ** Further properties *)

(** X1 (the constructor keeps the first state of each key).  Under every
    key the constructed registry holds the first state of the initializer
    list that has this key, later ones with the same key being dropped;
    its keys are the keys of the list and [count] is the number of
    distinct keys of the list. *)
Theorem constructor_first_wins (shared_states : list SharedState) (key : string) :
  flyweights_ (FlyweightFactory_new shared_states) !! key
  = Flyweight_of <$> first_with_key key shared_states
  ∧ dom (flyweights_ (FlyweightFactory_new shared_states))
    = list_to_set (GetKey <$> shared_states)
  ∧ count (FlyweightFactory_new shared_states)
    = length (remove_dups (GetKey <$> shared_states)).
Proof.
  assert (dom (flyweights_ (FlyweightFactory_new shared_states))
          =@{gset string} list_to_set (GetKey <$> shared_states)) as Hdom.
  { rewrite FlyweightFactory_new_intern_all, dom_intern_all, FlyweightFactory_new_nil.
    by rewrite dom_empty_L, union_empty_l_L. }
  split; [| split; [done |]].
  - rewrite FlyweightFactory_new_intern_all, lookup_intern_all, FlyweightFactory_new_nil.
    by rewrite lookup_empty.
  - rewrite count_dom, Hdom, <- keys_remove_dups.
    apply size_list_to_set, NoDup_remove_dups.
Qed.

(** X2 (populating is requesting).  A registry constructed from a list
    followed by another list is the registry constructed from the first
    list after a [GetFlyweight] call for each state of the second, in
    order. *)
Theorem constructor_as_requests (shared_states more : list SharedState) :
  FlyweightFactory_new (shared_states ++ more)
  = intern_all more (FlyweightFactory_new shared_states).
Proof.
  rewrite (FlyweightFactory_new_intern_all (shared_states ++ more)).
  rewrite (FlyweightFactory_new_intern_all shared_states).
  unfold intern_all. by rewrite foldl_app.
Qed.

(** X3 ([at] never throws).  [GetFlyweight] always returns a flyweight:
    the entry stored under the key of the request once the call is over.
    When the key was stored before, this is the entry that was there,
    whatever the fields of the request, and the registry is unchanged;
    when it was not, it is a flyweight of the request.  Entries under
    other keys are as before. *)
Theorem GetFlyweight_never_throws (ss : SharedState) (ff : FlyweightFactory) (key : string) :
  is_Some (returned (GetFlyweight ss ff))
  ∧ returned (GetFlyweight ss ff) = flyweights_ (factory (GetFlyweight ss ff)) !! GetKey ss
  ∧ (∀ fw, flyweights_ ff !! GetKey ss = Some fw →
       returned (GetFlyweight ss ff) = Some fw ∧ factory (GetFlyweight ss ff) = ff)
  ∧ (flyweights_ ff !! GetKey ss = None →
       returned (GetFlyweight ss ff) = Some (Flyweight_of ss))
  ∧ (key ≠ GetKey ss →
       flyweights_ (factory (GetFlyweight ss ff)) !! key = flyweights_ ff !! key).
Proof.
  destruct (GetFlyweight_returns ss ff) as (fw & Hret & Hin).
  split; [by eexists |]. split; [congruence |]. split; [| split].
  - intros fw' H. by rewrite (GetFlyweight_reuse _ _ _ H).
  - intros H. by rewrite (GetFlyweight_create _ _ H).
  - intros Hne. rewrite lookup_GetFlyweight.
    destruct (flyweights_ ff !! key); [done |]. by rewrite decide_False.
Qed.

(** X4 (what is interned comes back).  In a registry constructed and
    then filled by requests with states whose brand and model hold no
    ["_"], a request with such a state returns a flyweight holding exactly
    the requested brand, model and color. *)
Theorem intern_round_trip (shared_states reqs : list SharedState) (ss : SharedState) :
  Forall (fun x => plain x = true) shared_states →
  Forall (fun x => plain x = true) reqs →
  plain ss = true →
  returned (GetFlyweight ss (intern_all reqs (FlyweightFactory_new shared_states)))
  = Some (Flyweight_of ss).
Proof.
  apply intern_round_trip_aux.
Qed.

Lemma intern_round_trip_witness :
  returned (GetFlyweight (mkSharedState "BMW" "X1" "red")
              (intern_all [mkSharedState "BMW" "M5" "red"]
                 (FlyweightFactory_new [mkSharedState "Mercedes Benz" "C300" "black"])))
  = Some (Flyweight_of (mkSharedState "BMW" "X1" "red")).
Proof.
  apply (intern_round_trip [mkSharedState "Mercedes Benz" "C300" "black"]
           [mkSharedState "BMW" "M5" "red"] (mkSharedState "BMW" "X1" "red"));
    [repeat constructor | repeat constructor | reflexivity].
Defined.




(** X7 (adding a car).  On a registry constructed and then filled by
    requests with states whose brand and model hold no ["_"], adding a car
    whose brand and model hold none leaves the registry that
    [GetFlyweight] leaves and prints three things: the client's line, the
    "reusing" line when the key was stored and the "creating" line when
    not, and the display of exactly the brand, model and color asked for
    with the owner and plates given. *)
Theorem AddCarToPoliceDatabase_output (shared_states reqs : list SharedState)
    (plates owner brand model color : string) :
  Forall (fun x => plain x = true) shared_states →
  Forall (fun x => plain x = true) reqs →
  has_sep brand = false → has_sep model = false →
  factory (AddCarToPoliceDatabase (intern_all reqs (FlyweightFactory_new shared_states))
             plates owner brand model color)
  = factory (GetFlyweight (mkSharedState brand model color)
               (intern_all reqs (FlyweightFactory_new shared_states)))
  ∧ printed (AddCarToPoliceDatabase (intern_all reqs (FlyweightFactory_new shared_states))
               plates owner brand model color)
    = nl +:+ "Client: Adding a car to database." +:+ nl
      +:+ (if decide (GetKey (mkSharedState brand model color)
                      ∈ dom (flyweights_ (intern_all reqs (FlyweightFactory_new shared_states))))
           then msg_reused else msg_created)
      +:+ Operation (Flyweight_of (mkSharedState brand model color))
            (mkUniqueState owner plates).
Proof.
  intros Hinit Hreqs Hb Hm. split; [done |].
  assert (plain (mkSharedState brand model color) = true) as Hplain.
  { unfold plain. simpl. by rewrite Hb, Hm. }
  unfold AddCarToPoliceDatabase. simpl.
  rewrite (intern_round_trip_aux shared_states reqs _ Hinit Hreqs Hplain).
  do 3 f_equal.
  set (ff := intern_all reqs (FlyweightFactory_new shared_states)).
  destruct (flyweights_ ff !! GetKey (mkSharedState brand model color)) as [fw|] eqn:H.
  - rewrite (GetFlyweight_reuse _ _ _ H). simpl.
    rewrite decide_True; [done |]. apply elem_of_dom. by eexists.
  - rewrite (GetFlyweight_create _ _ H). simpl.
    rewrite decide_False; [done |]. by apply not_elem_of_dom.
Qed.

Lemma AddCarToPoliceDatabase_output_witness :
  factory (AddCarToPoliceDatabase (intern_all [] main_factory)
             "CL234IR" "James Doe" "BMW" "X1" "red")
  = factory (GetFlyweight (mkSharedState "BMW" "X1" "red") (intern_all [] main_factory))
  ∧ printed (AddCarToPoliceDatabase (intern_all [] main_factory)
               "CL234IR" "James Doe" "BMW" "X1" "red")
    = nl +:+ "Client: Adding a car to database." +:+ nl
      +:+ (if decide (GetKey (mkSharedState "BMW" "X1" "red")
                      ∈ dom (flyweights_ (intern_all [] main_factory)))
           then msg_reused else msg_created)
      +:+ Operation (Flyweight_of (mkSharedState "BMW" "X1" "red"))
            (mkUniqueState "James Doe" "CL234IR").
Proof.
  apply (AddCarToPoliceDatabase_output
           [ mkSharedState "Chevrolet" "Camaro" "pink";
             mkSharedState "Mercedes Benz" "C300" "black";
             mkSharedState "Mercedes Benz" "C500" "red";
             mkSharedState "BMW" "M5" "red";
             mkSharedState "BMW" "X6" "white" ] []
           "CL234IR" "James Doe" "BMW" "X1" "red");
    [repeat constructor | constructor | reflexivity | reflexivity].
Defined.

End Flyweight_Coverage.

(** * Part VII: the rest of the Observer file *)

Module Observer_Coverage.
Import Behavioral_Observer String_Facts Observer_Proofs.

(** ** More on [std::list::remove] *)

Lemma std_list_remove_app (value : addr) (l l' : list addr) :
  std_list_remove value (l ++ l') = (std_list_remove value l ++ std_list_remove value l')%list.
Proof.
  induction l as [|x l IH]; [done |]. simpl.
  destruct (decide (x = value)); [done |]. simpl. by rewrite IH.
Qed.

Lemma std_list_remove_comm (a b : addr) (l : list addr) :
  std_list_remove a (std_list_remove b l) = std_list_remove b (std_list_remove a l).
Proof.
  induction l as [|x l IH]; [done |]. simpl.
  destruct (decide (x = b)) as [Hb|Hb]; destruct (decide (x = a)) as [Ha|Ha]; simpl;
    rewrite ?decide_True, ?decide_False by done; by rewrite ?IH.
Qed.

Lemma std_list_remove_length (value : addr) (l : list addr) :
  length (std_list_remove value l) + length (filter (fun x => x = value) l) = length l.
Proof.
  induction l as [|x l IH]; [done |]. simpl. rewrite filter_cons.
  destruct (decide (x = value)); simpl; lia.
Qed.

Lemma elem_of_std_list_remove (value x : addr) (l : list addr) :
  x ∈ std_list_remove value l ↔ x ∈ l ∧ x ≠ value.
Proof.
  rewrite std_list_remove_filter, list_elem_of_filter. tauto.
Qed.

(** ** [Notify] has a result only on live objects *)

Lemma Notify_loop_Some_live (s : addr) (its : list addr) (w w' : World) :
  Notify_loop s its w = Some w' → all_live its w.
Proof.
  revert w. induction its as [|it rest IH]; intros w; [by constructor |].
  simpl. destruct (subject_at s w) as [this|]; [| done]. simpl.
  rewrite Update_eq. destruct (observer_at it w) as [ob|] eqn:Hob; [| done]. simpl.
  intros Hrest. apply IH in Hrest. constructor; [by eexists |].
  eapply Forall_impl; [exact Hrest |]. intros o. simpl.
  rewrite observer_at_updated by (by eapply observer_at_lt).
  case_decide as Ho; [| done]. subst o. by eexists.
Qed.

Lemma Notify_inv (s : addr) (w w' : World) :
  Notify s w = Some w' →
  ∃ this, subject_at s w = Some this
          ∧ all_live (list_observer_ this) w
          ∧ static_number_ w' = static_number_ w
          ∧ subjects w' = subjects w
          ∧ trace w'
            = (trace w ++ EvHowMany (length (list_observer_ this))
                          :: (list_observer_ this ≫= notification w (message_ this)))%list
          ∧ ∀ o, observer_at o w'
                 = if decide (o ∈ list_observer_ this)
                   then received (message_ this) <$> observer_at o w
                   else observer_at o w.
Proof.
  intros Hrun. destruct (subject_at s w) as [this|] eqn:Hs.
  2: { unfold Notify in Hrun. by rewrite Hs in Hrun. }
  assert (all_live (list_observer_ this) w) as Hlive.
  { unfold Notify, HowManyObservers in Hrun. rewrite Hs in Hrun. simpl in Hrun.
    by apply Notify_loop_Some_live in Hrun. }
  exists this. split; [done |]. split; [done |].
  destruct (Notify_total s this w Hs Hlive) as (w'' & Hrun' & H).
  rewrite Hrun in Hrun'. by injection Hrun' as ->.
Qed.

(** [CreateMessage], from its result. *)
Lemma CreateMessage_inv (s : addr) (message : option string) (w w' : World) :
  CreateMessage s message w = Some w' →
  ∃ this, subject_at s w = Some this
          ∧ all_live (list_observer_ this) w
          ∧ static_number_ w' = static_number_ w
          ∧ subjects w'
            = <[s := Some (mkSubject (list_observer_ this)
                             (default CreateMessage_default message))]> (subjects w)
          ∧ trace w'
            = (trace w ++ EvHowMany (length (list_observer_ this))
                          :: (list_observer_ this
                                ≫= notification w (default CreateMessage_default message)))%list
          ∧ ∀ o, observer_at o w'
                 = if decide (o ∈ list_observer_ this)
                   then received (default CreateMessage_default message) <$> observer_at o w
                   else observer_at o w.
Proof.
  unfold CreateMessage. destruct (subject_at s w) as [this|] eqn:Hs; [| done]. simpl.
  intros Hrun. apply Notify_inv in Hrun as (this' & Hs' & Hlive & Hst & Hsub & Htr & Hobs).
  rewrite subject_at_put_eq in Hs' by (by eapply subject_at_lt).
  injection Hs' as <-. simpl in *. by exists this.
Qed.

Lemma CreateMessage_total (s : addr) (message : option string) (this : Subject) (w : World) :
  subject_at s w = Some this → all_live (list_observer_ this) w →
  is_Some (CreateMessage s message w).
Proof.
  intros Hs Hlive. unfold CreateMessage. rewrite Hs. simpl.
  set (this' := mkSubject (list_observer_ this) (default CreateMessage_default message)).
  destruct (Notify_total s this' (put_subject s (Some this') w)) as (w' & Hrun & _).
  - apply subject_at_put_eq. by eapply subject_at_lt.
  - done.
  - by eexists.
Qed.

Lemma subject_at_insert_ne (s s' : addr) (c : option Subject) (w w' : World) :
  s ≠ s' → subjects w' = <[s := c]> (subjects w) → subject_at s' w' = subject_at s' w.
Proof.
  intros Hne Hsub. unfold subject_at. by rewrite Hsub, list_lookup_insert_ne.
Qed.

Lemma subject_at_insert_eq (s : addr) (c : option Subject) (w w' : World) :
  s < length (subjects w) → subjects w' = <[s := c]> (subjects w) → subject_at s w' = c.
Proof.
  intros Hlt Hsub. unfold subject_at. by rewrite Hsub, list_lookup_insert_eq.
Qed.

(** ** Further properties *)

(** X8 (attach, then detach).  [Attach] always adds one entry, also for
    an observer that is in the list already.  Detaching the observer just
    attached gives what detaching it before the attachment gives, which is
    the subject itself when the observer was not in the list; and
    detaching another observer goes through the attachment. *)
Theorem attach_then_detach (o x : addr) (this : Subject) :
  Subject_size (Subject_Attach o this) = S (Subject_size this)
  ∧ Subject_Detach o (Subject_Attach o this) = Subject_Detach o this
  ∧ (o ∉ list_observer_ this → Subject_Detach o (Subject_Attach o this) = this)
  ∧ (x ≠ o →
     Subject_Detach o (Subject_Attach x this) = Subject_Attach x (Subject_Detach o this)).
Proof.
  assert (Subject_Detach o (Subject_Attach o this) = Subject_Detach o this) as Hdet.
  { unfold Subject_Detach, Subject_Attach. simpl. rewrite std_list_remove_app. simpl.
    rewrite decide_True by done. by rewrite app_nil_r. }
  split; [| split; [done |]; split].
  - unfold Subject_size, Subject_Attach. simpl. rewrite length_app. simpl. lia.
  - intros Hnot. rewrite Hdet. unfold Subject_Detach.
    rewrite std_list_remove_absent by done. by destruct this.
  - intros Hne. unfold Subject_Detach, Subject_Attach. simpl.
    rewrite std_list_remove_app. simpl. by rewrite decide_False.
Qed.

(** X9 (detaching several observers).  The order in which two observers
    are detached does not matter; a detachment shortens the list by the
    number of entries of the observer, and an entry of another observer
    is in the list afterwards exactly when it was before. *)
Theorem detach_commutes (a b x : addr) (this : Subject) :
  Subject_Detach a (Subject_Detach b this) = Subject_Detach b (Subject_Detach a this)
  ∧ Subject_size (Subject_Detach a this)
    + length (filter (fun y => y = a) (list_observer_ this))
    = Subject_size this
  ∧ (x ∈ list_observer_ (Subject_Detach a this) ↔ x ∈ list_observer_ this ∧ x ≠ a).
Proof.
  split; [| split].
  - unfold Subject_Detach. simpl. by rewrite std_list_remove_comm.
  - apply std_list_remove_length.
  - apply elem_of_std_list_remove.
Qed.

(** X10 (when [Notify] has a result).  [Notify] runs to its end exactly
    when the subject is live and every entry of its list is a live
    observer. *)
Theorem Notify_defined_iff (s : addr) (w : World) :
  is_Some (Notify s w)
  ↔ ∃ this, subject_at s w = Some this ∧ all_live (list_observer_ this) w.
Proof.
  split.
  - intros [w' Hrun]. apply Notify_inv in Hrun as (this & Hs & Hlive & _). by exists this.
  - intros (this & Hs & Hlive).
    destruct (Notify_total s this w Hs Hlive) as (w' & Hrun & _). by eexists.
Qed.

(** X11 (the destructor does not detach).  Destroying a live observer
    prints its goodbye line and leaves every subject's list as it is;
    the other observers are untouched and the observer cannot be destroyed
    a second time.  If it was in the list of a live subject it still is,
    and [Notify] and [CreateMessage] on that subject no longer have a
    result. *)
Theorem destructor_leaves_entry (o : addr) (ob : Observer) (w : World) :
  observer_at o w = Some ob →
  ∃ w', Observer_delete o w = Some w'
        ∧ cout w' = cout w +:+ render (EvGoodbye (number_ ob))
        ∧ subjects w' = subjects w
        ∧ observer_at o w' = None
        ∧ (∀ o', o' ≠ o → observer_at o' w' = observer_at o' w)
        ∧ Observer_delete o w' = None
        ∧ (∀ s this message,
             subject_at s w = Some this → o ∈ list_observer_ this →
             Notify s w' = None ∧ CreateMessage s message w' = None).
Proof.
  intros Hob. pose proof (observer_at_lt o w ob Hob) as Hlt.
  exists (put_observer o None (emit (EvGoodbye (number_ ob)) w)).
  assert (observer_at o (put_observer o None (emit (EvGoodbye (number_ ob)) w)) = None)
    as Hgone by (by apply observer_at_put_eq).
  split; [unfold Observer_delete; by rewrite Hob |]. split.
  { unfold cout. simpl. rewrite render_all_app. simpl. by rewrite append_nil_r. }
  split; [done |]. split; [done |]. split.
  { intros o' Hne. by rewrite observer_at_put_ne. }
  split; [unfold Observer_delete; by rewrite Hgone |].
  intros s this message Hs Hin. split.
  - destruct (Notify s _) as [w2|] eqn:Hrun; [| done].
    apply Notify_inv in Hrun as (this' & Hs' & Hlive & _).
    change (subject_at s w = Some this') in Hs'. rewrite Hs in Hs'. injection Hs' as <-.
    apply (proj1 (Forall_forall _ _) Hlive) in Hin. rewrite Hgone in Hin.
    by destruct Hin.
  - destruct (CreateMessage s message _) as [w2|] eqn:Hrun; [| done].
    apply CreateMessage_inv in Hrun as (this' & Hs' & Hlive & _).
    change (subject_at s w = Some this') in Hs'. rewrite Hs in Hs'. injection Hs' as <-.
    apply (proj1 (Forall_forall _ _) Hlive) in Hin. rewrite Hgone in Hin.
    by destruct Hin.
Qed.

Lemma destructor_leaves_entry_witness :
  observer_at 1 three_observers = Some (mkObserver EmptyString 0 2)
  ∧ ∃ w', Observer_delete 1 three_observers = Some w'
          ∧ subject_at 0 w' = Some (mkSubject [0; 1; 2] EmptyString)
          ∧ Notify 0 w' = None.
Proof.
  split; [reflexivity |].
  destruct (destructor_leaves_entry 1 (mkObserver EmptyString 0 2) three_observers eq_refl)
    as (w' & Hdel & _ & Hsub & _ & _ & _ & Hnotify).
  exists w'. split; [exact Hdel |]. split.
  - unfold subject_at. rewrite Hsub. reflexivity.
  - apply (Hnotify 0 (mkSubject [0; 1; 2] EmptyString) None eq_refl).
    apply list_elem_of_further, list_elem_of_here.
Defined.

(** X12 (an observer removes itself).  On a live observer whose subject
    is live, [RemoveMeFromTheList] detaches the observer from the subject
    it was constructed on and from no other, leaves the observers as they
    are, and prints its line whether or not the observer was in the list.
    A later [CreateMessage] on that subject makes no [Update] call on the
    observer and leaves it with the message it had. *)
Theorem remove_me_from_the_list (o : addr) (ob : Observer) (this : Subject) (w : World) :
  observer_at o w = Some ob →
  subject_at (subject_ ob) w = Some this →
  ∃ w1, RemoveMeFromTheList o w = Some w1
        ∧ subject_at (subject_ ob) w1 = Some (Subject_Detach o this)
        ∧ (∀ s', s' ≠ subject_ ob → subject_at s' w1 = subject_at s' w)
        ∧ observers w1 = observers w
        ∧ cout w1 = cout w +:+ render (EvRemoved (number_ ob))
        ∧ (∀ message w2,
             CreateMessage (subject_ ob) message w1 = Some w2 →
             observer_at o w2 = Some ob
             ∧ ∀ msg, (o, msg) ∉ update_calls (drop (length (trace w1)) (trace w2))).
Proof.
  intros Hob Hs. pose proof (subject_at_lt _ _ _ Hs) as Hlt.
  set (w0 := put_subject (subject_ ob) (Some (Subject_Detach o this)) w).
  exists (emit (EvRemoved (number_ ob)) w0).
  assert (subject_at (subject_ ob) (emit (EvRemoved (number_ ob)) w0)
          = Some (Subject_Detach o this)) as Hs1.
  { change (subject_at (subject_ ob) w0 = Some (Subject_Detach o this)).
    by apply subject_at_put_eq. }
  split.
  { unfold RemoveMeFromTheList, Detach. rewrite Hob. simpl. by rewrite Hs. }
  split; [done |]. split.
  { intros s' Hne.
    by apply (subject_at_insert_ne (subject_ ob) s' (Some (Subject_Detach o this)) w). }
  split; [done |]. split.
  { unfold cout. simpl. rewrite render_all_app. simpl. by rewrite append_nil_r. }
  intros message w2 Hrun.
  apply CreateMessage_inv in Hrun as (this1 & Hs1' & Hlive & _ & _ & Htr & Hobs).
  rewrite Hs1 in Hs1'. injection Hs1' as <-. simpl in Hobs, Htr, Hlive.
  split.
  - rewrite Hobs, decide_False by apply std_list_remove_gone. exact Hob.
  - intros msg. rewrite Htr. simpl. rewrite drop_app_length'. 2: { by rewrite length_app. }
    change (update_calls (EvHowMany ?k :: ?t)) with (update_calls t).
    rewrite (update_calls_notifications _ _ _ Hlive).
    rewrite list_elem_of_fmap. intros (o' & [= <- _] & Hin).
    by apply std_list_remove_gone in Hin.
Qed.

Lemma remove_me_from_the_list_witness :
  observer_at 2 three_observers = Some (mkObserver EmptyString 0 3)
  ∧ subject_at 0 three_observers = Some (mkSubject [0; 1; 2] EmptyString)
  ∧ ∃ w1, RemoveMeFromTheList 2 three_observers = Some w1
          ∧ subject_at 0 w1 = Some (mkSubject [0; 1] EmptyString).
Proof.
  split; [reflexivity |]. split; [reflexivity |].
  destruct (remove_me_from_the_list 2 (mkObserver EmptyString 0 3)
              (mkSubject [0; 1; 2] EmptyString) three_observers eq_refl eq_refl)
    as (w1 & Hrun & Hs & _).
  exists w1. split; [exact Hrun | exact Hs].
Defined.

(** X13 (a constructed observer is attached last).  Constructing an
    observer on a live subject puts a new address, live in no earlier
    state, at the end of that subject's list and touches no other subject
    and no earlier observer; the new observer refers to the subject and
    has received no message.  When the earlier subscribers are live, the
    next [CreateMessage] on the subject calls [Update] on them in their
    order and on the new observer last. *)
Theorem construction_attaches_last (s : addr) (this : Subject) (message : option string)
    (w : World) :
  subject_at s w = Some this →
  all_live (list_observer_ this) w →
  ∃ w1, Observer_new s w = Some w1
        ∧ observer_at (length (observers w)) w = None
        ∧ subject_at s w1 = Some (Subject_Attach (length (observers w)) this)
        ∧ (∀ s', s' ≠ s → subject_at s' w1 = subject_at s' w)
        ∧ (∀ o, o < length (observers w) → observer_at o w1 = observer_at o w)
        ∧ message_from_subject_ <$> observer_at (length (observers w)) w1 = Some EmptyString
        ∧ subject_ <$> observer_at (length (observers w)) w1 = Some s
        ∧ ∃ w2, CreateMessage s message w1 = Some w2
                ∧ update_calls (trace w2)
                  = (update_calls (trace w)
                     ++ ((fun o => (o, default CreateMessage_default message))
                           <$> (list_observer_ this ++ [length (observers w)])))%list.
Proof.
  intros Hs Hlive. pose proof (subject_at_lt _ _ _ Hs) as Hlt.
  rewrite Observer_new_eq, Hs. simpl. eexists. split; [reflexivity |].
  set (n := int_wrap (static_number_ w + 1)).
  set (new := length (observers w)).
  set (w1 := mkWorld n (<[s := Some (Subject_Attach new this)]> (subjects w))
               (observers w ++ [Some (mkObserver EmptyString s n)])
               (trace w ++ [EvHi n])).
  assert (∀ o, o < new → observer_at o w1 = observer_at o w) as Hold.
  { intros o Ho. unfold observer_at. simpl. by rewrite lookup_app_l. }
  assert (observer_at new w1 = Some (mkObserver EmptyString s n)) as Hnew.
  { unfold observer_at. simpl. by rewrite lookup_app_r, Nat.sub_diag. }
  assert (subject_at s w1 = Some (Subject_Attach new this)) as Hs1.
  { by apply (subject_at_insert_eq s _ w). }
  split.
  { unfold observer_at. by rewrite lookup_ge_None_2. }
  split; [done |]. split.
  { intros s' Hne. by apply (subject_at_insert_ne s s' (Some (Subject_Attach new this)) w). }
  split; [done |]. split; [by rewrite Hnew |]. split; [by rewrite Hnew |].
  assert (all_live (list_observer_ this ++ [new]) w1) as Hlive1.
  { apply Forall_app. split.
    - eapply Forall_impl; [exact Hlive |]. intros o [ob Hob]. simpl.
      rewrite Hold by (by eapply observer_at_lt). by eexists.
    - apply Forall_singleton. by eexists. }
  destruct (CreateMessage_total s message _ w1 Hs1 Hlive1) as [w2 Hrun].
  exists w2. split; [done |].
  apply CreateMessage_inv in Hrun as (this1 & Hs1' & Hlive1' & _ & _ & Htr & _).
  rewrite Hs1 in Hs1'. injection Hs1' as <-. simpl in Htr, Hlive1'.
  rewrite Htr, update_calls_app. simpl trace. rewrite update_calls_app. simpl.
  rewrite app_nil_r. f_equal.
  change (update_calls (EvHowMany ?k :: ?t)) with (update_calls t).
  by rewrite (update_calls_notifications _ _ _ Hlive1').
Qed.

Lemma construction_attaches_last_witness :
  subject_at 0 three_observers = Some (mkSubject [0; 1; 2] EmptyString)
  ∧ all_live [0; 1; 2] three_observers
  ∧ ∃ w1, Observer_new 0 three_observers = Some w1
          ∧ subject_at 0 w1 = Some (mkSubject [0; 1; 2; 3] EmptyString).
Proof.
  assert (all_live [0; 1; 2] three_observers) as Hlive.
  { repeat constructor; by eexists. }
  split; [reflexivity |]. split; [exact Hlive |].
  destruct (construction_attaches_last 0 (mkSubject [0; 1; 2] EmptyString) None
              three_observers eq_refl Hlive)
    as (w1 & Hrun & _ & Hs & _).
  exists w1. split; [exact Hrun | exact Hs].
Defined.

(** X14 (the announcement counts the calls).  When [Notify] has a result,
    what it adds to the trace is the announcement of the size of the list
    followed by events among which there are exactly that many [Update]
    calls. *)
Theorem announcement_is_accurate (s : addr) (w w' : World) :
  Notify s w = Some w' →
  ∃ this rest,
    subject_at s w = Some this
    ∧ trace w' = (trace w ++ EvHowMany (Subject_size this) :: rest)%list
    ∧ length (update_calls rest) = Subject_size this
    ∧ cout w' = cout w +:+ render (EvHowMany (Subject_size this)) +:+ render_all rest.
Proof.
  intros Hrun. apply Notify_inv in Hrun as (this & Hs & Hlive & _ & _ & Htr & _).
  exists this, (list_observer_ this ≫= notification w (message_ this)).
  split; [done |]. split; [done |]. split.
  - rewrite (update_calls_notifications _ _ _ Hlive). apply length_fmap.
  - unfold cout. by rewrite Htr, render_all_app.
Qed.

Lemma announcement_is_accurate_witness :
  Notify 0 three_observers = Some (default init (Notify 0 three_observers))
  ∧ ∃ this rest,
      subject_at 0 three_observers = Some this
      ∧ trace (default init (Notify 0 three_observers))
        = (trace three_observers ++ EvHowMany (Subject_size this) :: rest)%list
      ∧ length (update_calls rest) = Subject_size this
      ∧ cout (default init (Notify 0 three_observers))
        = cout three_observers +:+ render (EvHowMany (Subject_size this)) +:+ render_all rest.
Proof.
  assert (Notify 0 three_observers = Some (default init (Notify 0 three_observers))) as Hrun.
  { vm_compute. reflexivity. }
  split; [exact Hrun |].
  exact (announcement_is_accurate 0 three_observers _ Hrun).
Defined.

(** X15 (the business logic).  On a live subject whose subscribers are
    live, [SomeBusinessLogic] runs to its end: it leaves "change message"
    as the subject's message and the list as it was, calls [Update] with
    "change message" once for each entry in order, and writes the
    announcement, one line per entry and, after them, its own line. *)
Theorem business_logic_notifies (s : addr) (this : Subject) (w : World) :
  subject_at s w = Some this →
  all_live (list_observer_ this) w →
  ∃ w', SomeBusinessLogic s w = Some w'
        ∧ subject_at s w' = Some (mkSubject (list_observer_ this) "change message")
        ∧ update_calls (trace w')
          = (update_calls (trace w)
             ++ ((fun o => (o, "change message")) <$> list_observer_ this))%list
        ∧ (∀ o, o ∈ list_observer_ this →
             message_from_subject_ <$> observer_at o w' = Some "change message")
        ∧ cout w'
          = cout w +:+ render (EvHowMany (length (list_observer_ this)))
            +:+ render_all (list_observer_ this ≫= notification w "change message")
            +:+ "I'm about to do something important." +:+ nl.
Proof.
  intros Hs Hlive. unfold SomeBusinessLogic. rewrite Hs. simpl.
  set (this' := mkSubject (list_observer_ this) "change message").
  set (w0 := put_subject s (Some this') w).
  assert (subject_at s w0 = Some this') as Hs0.
  { apply subject_at_put_eq. by eapply subject_at_lt. }
  destruct (Notify_total s this' w0 Hs0 Hlive) as (w1 & Hrun & _ & Hsub & Htr & Hobs).
  rewrite Hrun. simpl. eexists. split; [reflexivity |].
  split; [unfold subject_at; simpl; by rewrite Hsub |]. split.
  { simpl. rewrite update_calls_app. simpl. rewrite app_nil_r.
    by apply (Notify_calls s this' w0 w1). }
  split.
  - intros o Hin. change (observer_at o (emit EvImportant w1)) with (observer_at o w1).
    simpl in Hobs. rewrite Hobs, decide_True by done.
    apply (proj1 (Forall_forall _ _) Hlive) in Hin as [ob Hob].
    change (observer_at o w0) with (observer_at o w). by rewrite Hob.
  - unfold cout. simpl. rewrite Htr, !render_all_app. simpl.
    rewrite append_nil_r, !append_assoc. done.
Qed.

Lemma business_logic_notifies_witness :
  subject_at 0 three_observers = Some (mkSubject [0; 1; 2] EmptyString)
  ∧ all_live [0; 1; 2] three_observers
  ∧ ∃ w', SomeBusinessLogic 0 three_observers = Some w'
          ∧ update_calls (trace w')
            = [(0, "change message"); (1, "change message"); (2, "change message")].
Proof.
  assert (all_live [0; 1; 2] three_observers) as Hlive.
  { repeat constructor; by eexists. }
  split; [reflexivity |]. split; [exact Hlive |].
  destruct (business_logic_notifies 0 (mkSubject [0; 1; 2] EmptyString) three_observers
              eq_refl Hlive)
    as (w' & Hrun & _ & Hcalls & _).
  exists w'. split; [exact Hrun | exact Hcalls].
Defined.

(** X16 (a message concerns one subject).  When [CreateMessage] on a
    subject has a result, the counter and the list of that subject are
    unchanged, every other subject is as before, every observer that is
    not in the list is as before, and an observer in the list has kept its
    number and its subject. *)
Theorem create_message_frame (s : addr) (message : option string) (w w' : World) :
  CreateMessage s message w = Some w' →
  static_number_ w' = static_number_ w
  ∧ list_observer_ <$> subject_at s w' = list_observer_ <$> subject_at s w
  ∧ (∀ s', s' ≠ s → subject_at s' w' = subject_at s' w)
  ∧ (∀ o this, subject_at s w = Some this → o ∉ list_observer_ this →
       observer_at o w' = observer_at o w)
  ∧ (∀ o ob', observer_at o w' = Some ob' →
       ∃ ob, observer_at o w = Some ob
             ∧ number_ ob' = number_ ob ∧ subject_ ob' = subject_ ob).
Proof.
  intros Hrun.
  apply CreateMessage_inv in Hrun as (this & Hs & Hlive & Hst & Hsub & _ & Hobs).
  pose proof (subject_at_lt _ _ _ Hs) as Hlt.
  split; [done |]. split.
  { rewrite (subject_at_insert_eq s _ w w' Hlt Hsub), Hs. done. }
  split.
  { intros s' Hne. by apply (subject_at_insert_ne s s' _ w w' (not_eq_sym Hne) Hsub). }
  split.
  - intros o this' Hs' Hnin. rewrite Hs in Hs'. injection Hs' as <-.
    by rewrite Hobs, decide_False.
  - intros o ob'. rewrite Hobs. case_decide as Hin.
    + destruct (observer_at o w) as [ob|]; [| done]. simpl.
      intros [= <-]. by exists ob.
    + intros H. by exists ob'.
Qed.

Lemma create_message_frame_witness :
  CreateMessage 0 None three_observers
  = Some (default init (CreateMessage 0 None three_observers))
  ∧ static_number_ (default init (CreateMessage 0 None three_observers))
    = static_number_ three_observers.
Proof.
  assert (CreateMessage 0 None three_observers
          = Some (default init (CreateMessage 0 None three_observers))) as Hrun.
  { vm_compute. reflexivity. }
  split; [exact Hrun |].
  exact (proj1 (create_message_frame 0 None three_observers _ Hrun)).
Defined.

(** X17 ([PrintInfo] shows the last message).  When [Update] on an
    observer has a result, the observer holds the message passed and the
    number it had, and one line with this number and this message has been
    written; [PrintInfo] then has a result, writes the same line again and
    changes no object. *)
Theorem print_info_shows_last_message (o : addr) (msg : string) (w w1 : World) :
  Update o msg w = Some w1 →
  ∃ n, number_ <$> observer_at o w = Some n
       ∧ number_ <$> observer_at o w1 = Some n
       ∧ message_from_subject_ <$> observer_at o w1 = Some msg
       ∧ cout w1 = cout w +:+ render (EvNewMessage n msg)
       ∧ ∃ w2, PrintInfo o w1 = Some w2
               ∧ cout w2 = cout w1 +:+ render (EvNewMessage n msg)
               ∧ observers w2 = observers w1
               ∧ subjects w2 = subjects w1.
Proof.
  rewrite Update_eq. destruct (observer_at o w) as [ob|] eqn:Hob; [| done]. simpl.
  intros [= <-]. exists (number_ ob).
  pose proof (observer_at_lt o w ob Hob) as Hlt.
  assert (observer_at o (updated o msg ob w)
          = Some (mkObserver msg (subject_ ob) (number_ ob))) as Hnew.
  { rewrite observer_at_updated by done. by rewrite decide_True. }
  split; [done |]. rewrite Hnew. split; [done |]. split; [done |]. split.
  { unfold cout. simpl. rewrite render_all_app. simpl. by rewrite append_nil_r. }
  unfold PrintInfo. rewrite Hnew. simpl. eexists. split; [reflexivity |].
  split; [| done].
  unfold cout. simpl. rewrite (render_all_app (trace w ++ _)). simpl.
  by rewrite append_nil_r.
Qed.

Lemma print_info_shows_last_message_witness :
  Update 1 "Hello" three_observers = Some (updated 1 "Hello" (mkObserver EmptyString 0 2) three_observers)
  ∧ ∃ n, number_ <$> observer_at 1 three_observers = Some n
         ∧ message_from_subject_
             <$> observer_at 1 (updated 1 "Hello" (mkObserver EmptyString 0 2) three_observers)
           = Some "Hello".
Proof.
  assert (Update 1 "Hello" three_observers
          = Some (updated 1 "Hello" (mkObserver EmptyString 0 2) three_observers)) as Hrun.
  { vm_compute. reflexivity. }
  split; [exact Hrun |].
  destruct (print_info_shows_last_message 1 "Hello" three_observers _ Hrun)
    as (n & Hn & _ & Hmsg & _).
  exists n. split; [exact Hn | exact Hmsg].
Defined.

(** ** The discipline of [ClientCode] *)

Lemma calm_refl (w : World) : calm w w.
Proof. split; [intros s this o Hs Hin; by exists this | intros o ob H; by exists ob]. Qed.















End Observer_Coverage.
